(** * The user-interaction handshake of the web UI, client side

    A shallow embedding of the two browser clients of the interaction
    protocol:

    - [Handler]: the class [UserInteractionHandler] of
      [static/js/user_interaction.js] (modal dialog, kind dispatch);
    - [Standalone]: the inline script of [static/interaction_modal.html].

    JavaScript objects used as dictionaries are [gmap string _]; the DOM
    nodes the scripts touch are records; an [async] function is cut at its
    [await] on [fetch] into a [_begin] part (what runs synchronously at
    the call) and a [_resume] part (what runs once the fetch has settled).
    Exceptions are threaded by a small state-and-exception monad. *)

From stdpp Require Import base strings list gmap.

Local Open Scope string_scope.

(** ** JavaScript values and exceptions *)

Module Js.

(** The values a response can carry: [null], a boolean or a string. *)
Inductive Value : Type :=
| Null
| Bool (b : bool)
| Str (s : string).

Inductive Error : Type :=
| TypeError (message : string)
| NetworkError (message : string)
| SyntaxError (message : string).

Definition message (e : Error) : string :=
  match e with
  | TypeError m | NetworkError m | SyntaxError m => m
  end.

(** Outcome of a settled [fetch]: the promise resolves with a response
    for every HTTP status and rejects only when the transport fails. *)
Inductive Fetch : Type :=
| Response (status : nat)
| Rejected (error : Error).

(** Names every object inherits from [Object.prototype]: reading one of
    them on a plain [{}] yields a function (or the prototype itself for
    [__proto__]), which is truthy. *)
Definition Object_prototype : list string :=
  [ "constructor"; "__proto__"; "hasOwnProperty"; "isPrototypeOf";
    "propertyIsEnumerable"; "toLocaleString"; "toString"; "valueOf";
    "__defineGetter__"; "__defineSetter__"; "__lookupGetter__";
    "__lookupSetter__" ].

Definition inherited (key : string) : bool :=
  bool_decide (key ∈ Object_prototype).

Global Instance Value_eq_dec : EqDecision Value.
Proof. solve_decision. Defined.

Global Instance Error_eq_dec : EqDecision Error.
Proof. solve_decision. Defined.

End Js.

(** ** The wire contract *)

(** One entry of [GET /api/interaction/pending]. *)
Record Request : Type := {
  request_id : string;
  type : string;
  prompt : string;
  description : string;
  options : list string
}.

Global Instance Request_eq_dec : EqDecision Request.
Proof. solve_decision. Defined.

(** Bodies handed to [JSON.stringify]. *)
Inductive Body : Type :=
| ResponseBody (request_id : string) (response : Js.Value) (cancelled : bool)
| CancelBody (request_id : string).

Inductive Http : Type :=
| GET (path : string)
| POST (path : string) (body : Body).

Global Instance Body_eq_dec : EqDecision Body.
Proof. solve_decision. Defined.

Global Instance Http_eq_dec : EqDecision Http.
Proof. solve_decision. Defined.

Inductive Console : Type :=
| Log (text : string)
| Err (text : string).

(** What [Object.entries(data)] enumerates: the own keys of the parsed
    object with their values, in the object's property order. *)
Definition Entries : Type := list (string * Request).

Inductive Poll : Type :=
| PollData (data : Entries)
| PollFailed (error : Js.Error).

(** ** The page of the handler *)

Module Handler.

(** The children of [#user-interaction-content] that [showInteraction]
    writes through [innerHTML], with the state the user gives them.  A
    radio button carries the option text as its [value] (the template
    interpolates it as it is) and whether it is checked. *)
Inductive Content : Type :=
| Blank
| TextInput (value : string)
| LoginNotice
| ConfirmCheck (checked : bool)
| SelectionRadios (radios : list (string * bool))
| GenericNotice.

(** The subtree [createModalElement] inserts: [#user-interaction-modal]
    with its prompt, description, content area and the two footer
    buttons; [visible] is what the Bootstrap modal shows or hides. *)
Record ModalEl : Type := {
  prompt_text : string;
  description_text : string;
  content : Content;
  submit_text : string;
  submit_onclick : option Request;
  cancel_onclick : option Request;
  visible : bool
}.

(** The element [#interaction-status].  The modal template does not
    contain it: it is there only when the hosting page provides it. *)
Record StatusEl : Type := {
  textContent : string;
  className : string;
  display : string
}.

Inductive HeadNode : Type :=
| Stylesheet (href : string)
| Script (src : string).

(** The handler object, the document and the browser services the
    handler uses (timers, network, console). *)
Record World : Type := {
  (* fields of UserInteractionHandler *)
  interactionModal : bool;
  pendingInteractions : gmap string Request;
  checkInterval : option nat;
  initialized : bool;
  (* document *)
  modal_element : option ModalEl;
  status_element : option StatusEl;
  head : list HeadNode;
  bootstrap_defined : bool;
  (* window *)
  intervals : list nat;
  next_timer : nat;
  network : list Http;
  console : list Console
}.

Global Instance Content_eq_dec : EqDecision Content.
Proof. solve_decision. Defined.

Global Instance ModalEl_eq_dec : EqDecision ModalEl.
Proof. solve_decision. Defined.

Global Instance StatusEl_eq_dec : EqDecision StatusEl.
Proof. solve_decision. Defined.

(** *** Field updates *)

Definition with_interactionModal (b : bool) (w : World) : World :=
  {| interactionModal := b;
     pendingInteractions := pendingInteractions w;
     checkInterval := checkInterval w;
     initialized := initialized w;
     modal_element := modal_element w;
     status_element := status_element w;
     head := head w;
     bootstrap_defined := bootstrap_defined w;
     intervals := intervals w;
     next_timer := next_timer w;
     network := network w;
     console := console w |}.

Definition with_pendingInteractions (m : gmap string Request) (w : World) : World :=
  {| interactionModal := interactionModal w;
     pendingInteractions := m;
     checkInterval := checkInterval w;
     initialized := initialized w;
     modal_element := modal_element w;
     status_element := status_element w;
     head := head w;
     bootstrap_defined := bootstrap_defined w;
     intervals := intervals w;
     next_timer := next_timer w;
     network := network w;
     console := console w |}.

Definition with_checkInterval (t : option nat) (w : World) : World :=
  {| interactionModal := interactionModal w;
     pendingInteractions := pendingInteractions w;
     checkInterval := t;
     initialized := initialized w;
     modal_element := modal_element w;
     status_element := status_element w;
     head := head w;
     bootstrap_defined := bootstrap_defined w;
     intervals := intervals w;
     next_timer := next_timer w;
     network := network w;
     console := console w |}.

Definition with_initialized (b : bool) (w : World) : World :=
  {| interactionModal := interactionModal w;
     pendingInteractions := pendingInteractions w;
     checkInterval := checkInterval w;
     initialized := b;
     modal_element := modal_element w;
     status_element := status_element w;
     head := head w;
     bootstrap_defined := bootstrap_defined w;
     intervals := intervals w;
     next_timer := next_timer w;
     network := network w;
     console := console w |}.

Definition with_modal_element (m : option ModalEl) (w : World) : World :=
  {| interactionModal := interactionModal w;
     pendingInteractions := pendingInteractions w;
     checkInterval := checkInterval w;
     initialized := initialized w;
     modal_element := m;
     status_element := status_element w;
     head := head w;
     bootstrap_defined := bootstrap_defined w;
     intervals := intervals w;
     next_timer := next_timer w;
     network := network w;
     console := console w |}.

Definition with_status_element (e : option StatusEl) (w : World) : World :=
  {| interactionModal := interactionModal w;
     pendingInteractions := pendingInteractions w;
     checkInterval := checkInterval w;
     initialized := initialized w;
     modal_element := modal_element w;
     status_element := e;
     head := head w;
     bootstrap_defined := bootstrap_defined w;
     intervals := intervals w;
     next_timer := next_timer w;
     network := network w;
     console := console w |}.

Definition with_head (h : list HeadNode) (w : World) : World :=
  {| interactionModal := interactionModal w;
     pendingInteractions := pendingInteractions w;
     checkInterval := checkInterval w;
     initialized := initialized w;
     modal_element := modal_element w;
     status_element := status_element w;
     head := h;
     bootstrap_defined := bootstrap_defined w;
     intervals := intervals w;
     next_timer := next_timer w;
     network := network w;
     console := console w |}.

Definition with_bootstrap_defined (b : bool) (w : World) : World :=
  {| interactionModal := interactionModal w;
     pendingInteractions := pendingInteractions w;
     checkInterval := checkInterval w;
     initialized := initialized w;
     modal_element := modal_element w;
     status_element := status_element w;
     head := head w;
     bootstrap_defined := b;
     intervals := intervals w;
     next_timer := next_timer w;
     network := network w;
     console := console w |}.

Definition with_timers (ts : list nat) (next : nat) (w : World) : World :=
  {| interactionModal := interactionModal w;
     pendingInteractions := pendingInteractions w;
     checkInterval := checkInterval w;
     initialized := initialized w;
     modal_element := modal_element w;
     status_element := status_element w;
     head := head w;
     bootstrap_defined := bootstrap_defined w;
     intervals := ts;
     next_timer := next;
     network := network w;
     console := console w |}.

Definition with_network (n : list Http) (w : World) : World :=
  {| interactionModal := interactionModal w;
     pendingInteractions := pendingInteractions w;
     checkInterval := checkInterval w;
     initialized := initialized w;
     modal_element := modal_element w;
     status_element := status_element w;
     head := head w;
     bootstrap_defined := bootstrap_defined w;
     intervals := intervals w;
     next_timer := next_timer w;
     network := n;
     console := console w |}.

Definition with_console (c : list Console) (w : World) : World :=
  {| interactionModal := interactionModal w;
     pendingInteractions := pendingInteractions w;
     checkInterval := checkInterval w;
     initialized := initialized w;
     modal_element := modal_element w;
     status_element := status_element w;
     head := head w;
     bootstrap_defined := bootstrap_defined w;
     intervals := intervals w;
     next_timer := next_timer w;
     network := network w;
     console := c |}.

(** *** Computations that may throw *)

Inductive Completion (A : Type) : Type :=
| Normal (a : A)
| Throw (e : Js.Error).

Arguments Normal {A} a.
Arguments Throw {A} e.

Definition M (A : Type) : Type := World → Completion A * World.

Global Instance M_ret : MRet M := λ A a w, (Normal a, w).

Global Instance M_bind : MBind M := λ A B f c w,
  match c w with
  | (Normal a, w') => f a w'
  | (Throw e, w') => (Throw e, w')
  end.

Definition throw {A} (e : Js.Error) : M A := λ w, (Throw e, w).

(** [try { body } catch (error) { handler }] *)
Definition try_catch {A} (body : M A) (handler : Js.Error → M A) : M A := λ w,
  match body w with
  | (Normal a, w') => (Normal a, w')
  | (Throw e, w') => handler e w'
  end.

Definition gets {A} (f : World → A) : M A := λ w, (Normal (f w), w).

Definition modify (f : World → World) : M unit := λ w, (Normal tt, f w).

Definition exec {A} (c : M A) (w : World) : World := (c w).2.

Definition completion {A} (c : M A) (w : World) : Completion A := (c w).1.

(** *** Console, network and DOM primitives *)

Definition console_log (text : string) : M unit :=
  modify (λ w, with_console (console w ++ [Log text]) w).

Definition console_error (text : string) : M unit :=
  modify (λ w, with_console (console w ++ [Err text]) w).

(** [fetch(...)]: the request is handed to the network; the promise
    settles later. *)
Definition fetch (h : Http) : M unit :=
  modify (λ w, with_network (network w ++ [h]) w).

(** Writing a property of a node [getElementById] did not find. *)
Definition null_element : Js.Error :=
  Js.TypeError "Cannot set properties of null".

Definition null_receiver : Js.Error :=
  Js.TypeError "Cannot read properties of null".

(** An update of the modal subtree; the lookup yields [null] when the
    subtree is not in the document. *)
Definition on_modal (f : ModalEl → ModalEl) : M unit := λ w,
  match modal_element w with
  | Some m => (Normal tt, with_modal_element (Some (f m)) w)
  | None => (Throw null_element, w)
  end.

Definition set_prompt (s : string) (m : ModalEl) : ModalEl :=
  {| prompt_text := s; description_text := description_text m;
     content := content m; submit_text := submit_text m;
     submit_onclick := submit_onclick m; cancel_onclick := cancel_onclick m;
     visible := visible m |}.

Definition set_description (s : string) (m : ModalEl) : ModalEl :=
  {| prompt_text := prompt_text m; description_text := s;
     content := content m; submit_text := submit_text m;
     submit_onclick := submit_onclick m; cancel_onclick := cancel_onclick m;
     visible := visible m |}.

Definition set_content (c : Content) (m : ModalEl) : ModalEl :=
  {| prompt_text := prompt_text m; description_text := description_text m;
     content := c; submit_text := submit_text m;
     submit_onclick := submit_onclick m; cancel_onclick := cancel_onclick m;
     visible := visible m |}.

Definition set_submit_text (s : string) (m : ModalEl) : ModalEl :=
  {| prompt_text := prompt_text m; description_text := description_text m;
     content := content m; submit_text := s;
     submit_onclick := submit_onclick m; cancel_onclick := cancel_onclick m;
     visible := visible m |}.

Definition set_submit_onclick (r : option Request) (m : ModalEl) : ModalEl :=
  {| prompt_text := prompt_text m; description_text := description_text m;
     content := content m; submit_text := submit_text m;
     submit_onclick := r; cancel_onclick := cancel_onclick m;
     visible := visible m |}.

Definition set_cancel_onclick (r : option Request) (m : ModalEl) : ModalEl :=
  {| prompt_text := prompt_text m; description_text := description_text m;
     content := content m; submit_text := submit_text m;
     submit_onclick := submit_onclick m; cancel_onclick := r;
     visible := visible m |}.

Definition set_visible (b : bool) (m : ModalEl) : ModalEl :=
  {| prompt_text := prompt_text m; description_text := description_text m;
     content := content m; submit_text := submit_text m;
     submit_onclick := submit_onclick m; cancel_onclick := cancel_onclick m;
     visible := b |}.

(** [this.interactionModal.show()] and [.hide()]: a call on [null] while
    no Bootstrap modal has been constructed. *)
Definition modal_show : M unit :=
  m ← gets interactionModal;
  if m : bool then on_modal (set_visible true) else throw null_receiver.

Definition modal_hide : M unit :=
  m ← gets interactionModal;
  if m : bool then on_modal (set_visible false) else throw null_receiver.

(** An update of [#interaction-status]. *)
Definition on_status (f : StatusEl → StatusEl) : M unit := λ w,
  match status_element w with
  | Some e => (Normal tt, with_status_element (Some (f e)) w)
  | None => (Throw null_element, w)
  end.

Definition set_textContent (s : string) (e : StatusEl) : StatusEl :=
  {| textContent := s; className := className e; display := display e |}.

Definition set_className (s : string) (e : StatusEl) : StatusEl :=
  {| textContent := textContent e; className := s; display := display e |}.

Definition set_display (s : string) (e : StatusEl) : StatusEl :=
  {| textContent := textContent e; className := className e; display := s |}.

(** *** The methods of [UserInteractionHandler] *)

(** The state the constructor leaves, in a document [modal], [status]
    and [bootstrap] describe. *)
Definition constructor (modal : option ModalEl) (status : option StatusEl)
    (bootstrap : bool) : World :=
  {| interactionModal := false;
     pendingInteractions := ∅;
     checkInterval := None;
     initialized := false;
     modal_element := modal;
     status_element := status;
     head := [];
     bootstrap_defined := bootstrap;
     intervals := [];
     next_timer := 1;
     network := [];
     console := [] |}.

(** The markup of [createModalElement], as the document holds it after
    [insertAdjacentHTML]. *)
Definition modal_template : ModalEl :=
  {| prompt_text := ""; description_text := ""; content := Blank;
     submit_text := "Submit"; submit_onclick := None;
     cancel_onclick := None; visible := false |}.

Definition createModalElement : M unit :=
  modify (with_modal_element (Some modal_template)).

Definition bootstrap_css : string :=
  "https://cdn.jsdelivr.net/npm/bootstrap@5.3.0/dist/css/bootstrap.min.css".

Definition bootstrap_js : string :=
  "https://cdn.jsdelivr.net/npm/bootstrap@5.3.0/dist/js/bootstrap.bundle.min.js".

(** The [onload] callback of the script is [script_loaded] below. *)
Definition loadBootstrap : M unit :=
  modify (λ w, with_head (head w ++ [Stylesheet bootstrap_css]) w);;
  modify (λ w, with_head (head w ++ [Script bootstrap_js]) w).

(** [setInterval(() => this.checkPendingInteractions(), 2000)] *)
Definition setInterval : M nat := λ w,
  (Normal (next_timer w),
   with_timers (intervals w ++ [next_timer w]) (S (next_timer w)) w).

Definition clearInterval (t : nat) : M unit :=
  modify (λ w, with_timers (filter (λ i, i ≠ t) (intervals w)) (next_timer w) w).

Definition init : M unit :=
  done ← gets initialized;
  if done : bool then mret tt else
  console_log "Initializing user interaction handler...";;
  present ← gets modal_element;
  (if present is None
   then createModalElement;; console_log "Created modal element"
   else mret tt);;
  bootstrap ← gets bootstrap_defined;
  if negb bootstrap then
    console_error "Bootstrap is not loaded! Modal won't work.";;
    loadBootstrap
  else
    modify (with_interactionModal true);;
    t ← setInterval;
    modify (with_checkInterval (Some t));;
    modify (with_initialized true);;
    console_log "User interaction handler initialized".

(** The [switch] of [showInteraction]: the markup written into the
    content area for a request. *)
Definition render (request : Request) : Content :=
  if decide (type request = "text_input") then TextInput ""
  else if decide (type request = "login") then LoginNotice
  else if decide (type request = "confirmation") then ConfirmCheck false
  else if decide (type request = "selection")
       then SelectionRadios ((λ option, (option, false)) <$> options request)
  else GenericNotice.

Definition showInteraction (request : Request) : M unit :=
  on_modal (set_prompt (prompt request));;
  on_modal (set_description (description request));;
  on_modal (set_content Blank);;
  on_modal (set_content (render request));;
  (if decide (type request = "login")
   then on_modal (set_submit_text "Done") else mret tt);;
  on_modal (set_submit_onclick (Some request));;
  on_modal (set_cancel_onclick (Some request));;
  modal_show.

(** [this.pendingInteractions[reqId]] taken as a condition: an own entry
    (its value is an object) or an inherited property. *)
Definition known (pending : gmap string Request) (reqId : string) : bool :=
  bool_decide (is_Some (pending !! reqId)) || Js.inherited reqId.

(** The [for ... of] loop over [Object.entries(data)], left by [break]
    at the first entry that is not known. *)
Fixpoint process (data : Entries) : M unit :=
  match data with
  | [] => mret tt
  | (reqId, request) :: rest =>
      pending ← gets pendingInteractions;
      if known pending reqId then process rest
      else
        console_log "New interaction request:";;
        modify (λ w, with_pendingInteractions
                       (<[reqId := request]> (pendingInteractions w)) w);;
        showInteraction request
  end.

Definition check_catch (error : Js.Error) : M unit :=
  console_error "Error checking for interactions:".

Definition checkPendingInteractions_begin : M unit :=
  console_log "Checking for pending interactions...";;
  fetch (GET "/api/interaction/pending").

Definition checkPendingInteractions_resume (reply : Poll) : M unit :=
  match reply with
  | PollFailed error => check_catch error
  | PollData data =>
      try_catch
        (console_log "Pending interactions:";; process data)
        check_catch
  end.

Definition checkPendingInteractions (reply : Poll) : M unit :=
  checkPendingInteractions_begin;; checkPendingInteractions_resume reply.

(** Whether an [async] method is suspended at its [await fetch(...)] or
    has run to its end. *)
Inductive Async : Type :=
| Awaiting
| Finished.

(** [document.querySelector('input[name="selection"]:checked')]: the
    first checked radio in document order, with its [value]. *)
Definition checked_radio (c : Content) : option string :=
  match c with
  | SelectionRadios radios => fst <$> List.find snd radios
  | _ => None
  end.

Definition content_area : M Content :=
  m ← gets modal_element;
  mret (if m is Some el then content el else Blank).

(** The [switch] of [submitResponse]. Reading [.value] or [.checked] of
    an element the content area does not hold is a read on [null]. *)
Definition read_response (request : Request) : M Js.Value :=
  c ← content_area;
  if decide (type request = "text_input") then
    if c is TextInput value then mret (Js.Str value) else throw null_receiver
  else if decide (type request = "login") then
    mret (Js.Str "completed")
  else if decide (type request = "confirmation") then
    if c is ConfirmCheck checked then mret (Js.Bool checked) else throw null_receiver
  else if decide (type request = "selection") then
    mret (if checked_radio c is Some value then Js.Str value else Js.Null)
  else
    mret (Js.Str "acknowledged").

Definition delete_pending (request : Request) : M unit :=
  modify (λ w, with_pendingInteractions
                 (delete (request_id request) (pendingInteractions w)) w).

Definition submit_catch (error : Js.Error) : M Async :=
  console_error "Error submitting response:";;
  on_status (set_textContent ("Error notifying agent: " +:+ Js.message error));;
  on_status (set_className "alert alert-danger mt-3");;
  mret Finished.

Definition submitResponse_begin (request : Request) : M Async :=
  response ← read_response request;
  try_catch
    (on_status (set_textContent "Notifying agent of your action...");;
     on_status (set_className "alert alert-info mt-3");;
     on_status (set_display "block");;
     fetch (POST "/api/interaction/response"
              (ResponseBody (request_id request) response false));;
     mret Awaiting)
    submit_catch.

(** The rest of the [try] block once the fetch has settled; the closing
    [await] on a 1500 ms timer is followed by nothing. *)
Definition submitResponse_resume (request : Request) (reply : Js.Fetch) : M Async :=
  try_catch
    (match reply with
     | Js.Rejected error => throw error
     | Js.Response _ =>
         delete_pending request;;
         modal_hide;;
         on_status (set_textContent "Agent notified! Continuing task...");;
         on_status (set_className "alert alert-success mt-3");;
         mret Finished
     end)
    submit_catch.

Definition cancel_catch (error : Js.Error) : M Async :=
  console_error "Error cancelling interaction:";;
  mret Finished.

Definition cancelInteraction_begin (request : Request) : M Async :=
  try_catch
    (fetch (POST "/api/interaction/cancel" (CancelBody (request_id request)));;
     mret Awaiting)
    cancel_catch.

Definition cancelInteraction_resume (request : Request) (reply : Js.Fetch) : M Async :=
  try_catch
    (match reply with
     | Js.Rejected error => throw error
     | Js.Response _ =>
         delete_pending request;;
         modal_hide;;
         mret Finished
     end)
    cancel_catch.

(** The whole method, given how its fetch settles. *)
Definition submitResponse (request : Request) (reply : Js.Fetch) : M Async :=
  a ← submitResponse_begin request;
  if a is Awaiting then submitResponse_resume request reply else mret Finished.

Definition cancelInteraction (request : Request) (reply : Js.Fetch) : M Async :=
  a ← cancelInteraction_begin request;
  if a is Awaiting then cancelInteraction_resume request reply else mret Finished.

(** [if (this.checkInterval)]: [null] and the number 0 are falsy. *)
Definition cleanup : M unit :=
  t ← gets checkInterval;
  if t is Some i
  then (if decide (i = 0) then mret tt else clearInterval i)
  else mret tt.

(** *** What the user and the browser do to the page *)

(** Editing the form in the content area. *)
Inductive Edit : Type :=
| TypeText (text : string)
| ToggleCheck
| ChooseRadio (index : nat).

Definition apply_edit (c : Content) (e : Edit) : Content :=
  match e, c with
  | TypeText text, TextInput _ => TextInput text
  | ToggleCheck, ConfirmCheck checked => ConfirmCheck (negb checked)
  | ChooseRadio index, SelectionRadios radios =>
      if decide (index < length radios)
      then SelectionRadios (imap (λ j radio, (radio.1, bool_decide (j = index))) radios)
      else c
  | _, _ => c
  end.

Definition edit_content (c : Content) (edits : list Edit) : Content :=
  foldl apply_edit c edits.

(** A click on a button carrying [data-bs-dismiss="modal"]: Bootstrap
    hides the modal the button belongs to. *)
Definition bs_dismiss : M unit := λ w,
  (Normal tt, with_modal_element (set_visible false <$> modal_element w) w).

Definition submit_handler : M (option Request) :=
  m ← gets modal_element;
  mret (m ≫= submit_onclick).

Definition cancel_handler : M (option Request) :=
  m ← gets modal_element;
  mret (m ≫= cancel_onclick).

Definition click_submit : M unit :=
  h ← submit_handler;
  if h is Some request then submitResponse_begin request;; mret tt else mret tt.

(** The cancel button runs its [onclick] and, by its [data-bs-dismiss]
    attribute, closes the modal. *)
Definition click_cancel : M unit :=
  h ← cancel_handler;
  (if h is Some request then cancelInteraction_begin request;; mret tt else mret tt);;
  bs_dismiss.

(** The events of the page: the three callers of [init], a tick of an
    interval, the settling of a fetch, and what the user does ([KeyEnter]
    is the Enter key in the modal, which clicks the submit button;
    [ClickClose] is the close button of the modal's header). *)
Inductive Event : Type :=
| DOMContentLoaded
| ReadyTimeout
| ScriptLoaded
| Tick (timer : nat)
| PollSettled (reply : Poll)
| UserEdit (e : Edit)
| ClickSubmit
| KeyEnter
| ClickCancel
| ClickClose
| SubmitSettled (request : Request) (reply : Js.Fetch)
| CancelSettled (request : Request) (reply : Js.Fetch)
| BeforeUnload.

Definition dispatch (ev : Event) : M unit :=
  match ev with
  | DOMContentLoaded =>
      console_log "DOM loaded, initializing interaction handler";; init
  | ReadyTimeout => init
  | ScriptLoaded =>
      modify (with_bootstrap_defined true);;
      console_log "Bootstrap loaded dynamically";;
      init
  | Tick timer =>
      active ← gets intervals;
      if decide (timer ∈ active) then checkPendingInteractions_begin else mret tt
  | PollSettled reply => checkPendingInteractions_resume reply
  | UserEdit e =>
      modify (λ w, with_modal_element
                     ((λ m, set_content (apply_edit (content m) e) m)
                        <$> modal_element w) w)
  | ClickSubmit | KeyEnter => click_submit
  | ClickCancel => click_cancel
  | ClickClose => bs_dismiss
  | SubmitSettled request reply => submitResponse_resume request reply;; mret tt
  | CancelSettled request reply => cancelInteraction_resume request reply;; mret tt
  | BeforeUnload => cleanup
  end.

(** A run of the page: the world it ends in, and the errors no handler
    caught on the way (uncaught exceptions and unhandled rejections). *)
Fixpoint run (events : list Event) (w : World) : list Js.Error * World :=
  match events with
  | [] => ([], w)
  | ev :: rest =>
      match dispatch ev w with
      | (Normal _, w') => run rest w'
      | (Throw e, w') => let '(errors, w'') := run rest w' in (e :: errors, w'')
      end
  end.

(** *** Observations on a world *)

(** The request the modal is showing: the one its buttons are bound to,
    while the modal is visible. *)
Definition displayed (w : World) : option Request :=
  m ← modal_element w;
  if visible m then submit_onclick m else None.

(** No request is on display. *)
Definition Idle (w : World) : Prop := displayed w = None.

(** [request] is on display with its form, as [showInteraction] rendered
    it and the user has edited it since. *)
Definition Displaying (w : World) (request : Request) (edits : list Edit) : Prop :=
  interactionModal w = true ∧
  ∃ m, modal_element w = Some m ∧
       visible m = true ∧
       submit_onclick m = Some request ∧
       cancel_onclick m = Some request ∧
       content m = edit_content (render request) edits.

(** The status element while a submit is in flight. *)
Definition notifying : StatusEl :=
  {| textContent := "Notifying agent of your action...";
     className := "alert alert-info mt-3"; display := "block" |}.

(** Radios for [options] with the one at [chosen], if any, checked. *)
Definition marked (options : list string) (chosen : option nat) : list (string * bool) :=
  imap (λ j option, (option, bool_decide (Some j = chosen))) options.

(** What a successful [init] establishes and every later event keeps:
    the Bootstrap modal is constructed over a modal subtree that is in
    the document. *)
Definition Ready (w : World) : Prop :=
  interactionModal w = true ∧ is_Some (modal_element w).

(** A computation that keeps the page ready, however it completes. *)
Definition Preserves {A} (c : M A) : Prop :=
  ∀ w, Ready w → Ready (c w).2.

(** Two worlds that differ at most in what the console shows. *)
Definition same_page (w1 w2 : World) : Prop :=
  with_console [] w1 = with_console [] w2.

End Handler.

(** ** The standalone interaction page *)

Module Standalone.

(** [#status-message], written by [showStatus]. *)
Record Status : Type := {
  status_text : string;
  status_class : string;
  status_display : string
}.

(** The script's variable [currentRequest], the nodes of the page it
    writes, and the browser services it uses. *)
Record Page : Type := {
  currentRequest : option Request;
  interaction_prompt : string;
  interaction_description : string;
  complete_button : string;
  status_message : Status;
  timeouts : nat;
  network : list Http;
  console : list Console
}.

(** The page as its markup gives it, before the script has run. *)
Definition loaded : Page :=
  {| currentRequest := None;
     interaction_prompt := "Please complete this action";
     interaction_description := "";
     complete_button := "Done";
     status_message :=
       {| status_text := ""; status_class := ""; status_display := "none" |};
     timeouts := 0;
     network := [];
     console := [] |}.

Definition with_currentRequest (r : option Request) (p : Page) : Page :=
  {| currentRequest := r;
     interaction_prompt := interaction_prompt p;
     interaction_description := interaction_description p;
     complete_button := complete_button p;
     status_message := status_message p;
     timeouts := timeouts p;
     network := network p;
     console := console p |}.

Definition with_texts (prompt description : string) (p : Page) : Page :=
  {| currentRequest := currentRequest p;
     interaction_prompt := prompt;
     interaction_description := description;
     complete_button := complete_button p;
     status_message := status_message p;
     timeouts := timeouts p;
     network := network p;
     console := console p |}.

Definition with_complete_button (label : string) (p : Page) : Page :=
  {| currentRequest := currentRequest p;
     interaction_prompt := interaction_prompt p;
     interaction_description := interaction_description p;
     complete_button := label;
     status_message := status_message p;
     timeouts := timeouts p;
     network := network p;
     console := console p |}.

Definition with_status_message (s : Status) (p : Page) : Page :=
  {| currentRequest := currentRequest p;
     interaction_prompt := interaction_prompt p;
     interaction_description := interaction_description p;
     complete_button := complete_button p;
     status_message := s;
     timeouts := timeouts p;
     network := network p;
     console := console p |}.

Definition with_timeouts (n : nat) (p : Page) : Page :=
  {| currentRequest := currentRequest p;
     interaction_prompt := interaction_prompt p;
     interaction_description := interaction_description p;
     complete_button := complete_button p;
     status_message := status_message p;
     timeouts := n;
     network := network p;
     console := console p |}.

Definition with_network (n : list Http) (p : Page) : Page :=
  {| currentRequest := currentRequest p;
     interaction_prompt := interaction_prompt p;
     interaction_description := interaction_description p;
     complete_button := complete_button p;
     status_message := status_message p;
     timeouts := timeouts p;
     network := n;
     console := console p |}.

Definition with_console (c : list Console) (p : Page) : Page :=
  {| currentRequest := currentRequest p;
     interaction_prompt := interaction_prompt p;
     interaction_description := interaction_description p;
     complete_button := complete_button p;
     status_message := status_message p;
     timeouts := timeouts p;
     network := network p;
     console := c |}.

Definition fetch (h : Http) (p : Page) : Page :=
  with_network (network p ++ [h]) p.

Definition console_error (text : string) (p : Page) : Page :=
  with_console (console p ++ [Err text]) p.

Definition showStatus (message type : string) (p : Page) : Page :=
  with_status_message
    {| status_text := message; status_class := type; status_display := "block" |} p.

Definition displayRequest (request : Request) (p : Page) : Page :=
  let p := with_texts (prompt request) (interaction_description p) p in
  let p := with_texts (interaction_prompt p) (description request) p in
  if decide (type request = "login") then with_complete_button "Done" p else p.

Definition checkPendingInteractions_begin (p : Page) : Page :=
  fetch (GET "/api/interaction/pending") p.

(** The [then] and [catch] callbacks of the pending fetch. *)
Definition checkPendingInteractions_resume (reply : Poll) (p : Page) : Page :=
  match reply with
  | PollData data =>
      let requests := snd <$> data in
      match requests, currentRequest p with
      | first :: _, None => displayRequest first (with_currentRequest (Some first) p)
      | _, _ => p
      end
  | PollFailed error =>
      showStatus "Error checking for interactions. Please refresh the page." "error"
        (console_error "Error checking for interactions:" p)
  end.

Definition checkPendingInteractions (reply : Poll) (p : Page) : Page :=
  checkPendingInteractions_resume reply (checkPendingInteractions_begin p).

(** The callback both [setTimeout]s register. *)
Definition clear_form (p : Page) : Page :=
  with_timeouts (pred (timeouts p))
    (with_texts "Waiting for agent requests..." "" p).

Definition submitResponse_begin (p : Page) : Page :=
  match currentRequest p with
  | None => p
  | Some request =>
      fetch (POST "/api/interaction/response"
               (ResponseBody (request_id request) (Js.Str "completed") false))
        (showStatus "Sending response..." "info" p)
  end.

Definition submitResponse_resume (reply : Js.Fetch) (p : Page) : Page :=
  match reply with
  | Js.Response _ =>
      with_timeouts (S (timeouts p))
        (with_currentRequest None
           (showStatus "Response sent! The agent will continue." "success" p))
  | Js.Rejected error =>
      showStatus "Error sending response. Please try again." "error"
        (console_error "Error sending response:" p)
  end.

Definition submitResponse (reply : Js.Fetch) (p : Page) : Page :=
  match currentRequest p with
  | None => p
  | Some _ => submitResponse_resume reply (submitResponse_begin p)
  end.

Definition cancelRequest_begin (p : Page) : Page :=
  match currentRequest p with
  | None => p
  | Some request =>
      fetch (POST "/api/interaction/cancel" (CancelBody (request_id request))) p
  end.

Definition cancelRequest_resume (reply : Js.Fetch) (p : Page) : Page :=
  match reply with
  | Js.Response _ =>
      with_timeouts (S (timeouts p))
        (with_currentRequest None (showStatus "Request cancelled." "info" p))
  | Js.Rejected error =>
      showStatus "Error cancelling request. Please try again." "error"
        (console_error "Error cancelling request:" p)
  end.

Definition cancelRequest (reply : Js.Fetch) (p : Page) : Page :=
  match currentRequest p with
  | None => p
  | Some _ => cancelRequest_resume reply (cancelRequest_begin p)
  end.

End Standalone.

(** ** The kind-dispatch table, in the specification's words

    What the user has done to the form decides the value: the text last
    typed (none typed: the empty string), the toggle's state (unset until
    toggled), the option last chosen (none chosen: nothing). *)

Module Table.

Import Handler.

Definition field_text (edits : list Edit) : string :=
  foldl (λ text e, if e is TypeText t then t else text) "" edits.

Definition toggle_state (edits : list Edit) : bool :=
  foldl (λ state e, if e is ToggleCheck then negb state else state) false edits.

Definition chosen_index (options : list string) (edits : list Edit) : option nat :=
  foldl (λ chosen e,
           if e is ChooseRadio i
           then (if decide (i < length options) then Some i else chosen)
           else chosen)
        None edits.

Definition chosen_option (options : list string) (edits : list Edit) : option string :=
  i ← chosen_index options edits; options !! i.

Definition kind_dispatch (request : Request) (edits : list Edit) : Js.Value :=
  if decide (type request = "text_input") then Js.Str (field_text edits)
  else if decide (type request = "login") then Js.Str "completed"
  else if decide (type request = "confirmation") then Js.Bool (toggle_state edits)
  else if decide (type request = "selection") then
    (if chosen_option (options request) edits is Some o then Js.Str o else Js.Null)
  else Js.Str "acknowledged".

End Table.

(** ** Sample data *)

Module Sample.

Import Handler.

Definition login_request : Request :=
  {| request_id := "req-1"; type := "login"; prompt := "Sign in";
     description := "Log in to the site"; options := [] |}.

Definition text_request : Request :=
  {| request_id := "req-2"; type := "text_input"; prompt := "Code";
     description := ""; options := [] |}.


Definition hidden_status : StatusEl :=
  {| textContent := ""; className := ""; display := "none" |}.

(** A page that brings the status element and Bootstrap, after [init]. *)
Definition ready : World :=
  exec init (constructor None (Some hidden_status) true).

(** The same page once a poll has found [r]. *)
Definition showing (r : Request) : World :=
  exec (checkPendingInteractions (PollData [(request_id r, r)])) ready.

(** The same page after the user has worked on the form. *)
Definition edited (r : Request) (edits : list Edit) : World :=
  (run (UserEdit <$> edits) (showing r)).2.

(** The page of [showing r] after the user has pressed Submit. *)
Definition submitting (r : Request) : World :=
  exec (dispatch ClickSubmit) (showing r).

(** ... and after the server has answered that submit with 200. *)
Definition resolved (r : Request) : World :=
  exec (dispatch (SubmitSettled r (Js.Response 200))) (submitting r).

End Sample.

(** ** Two claims of the specification, in its words *)

Module Claims.

Import Handler.



End Claims.

(** ** Invariants of the handler's page *)

Module Invariants.

Import Handler.

Local Open Scope nat_scope.

(** A computation that keeps [I], however it completes. *)
Definition Keeps (I : World → Prop) {A} (c : M A) : Prop :=
  ∀ w, I w → I (c w).2.

(** The form in the content area is the form of the request the submit
    button is bound to, as rendered and edited since. *)
Definition Bound (w : World) : Prop :=
  ∀ m request,
    modal_element w = Some m → submit_onclick m = Some request →
    ∃ edits, content m = edit_content (render request) edits.

(** A ready page that has the status element and a form that fits its
    submit handler. *)
Definition Sound (w : World) : Prop :=
  Ready w ∧ is_Some (status_element w) ∧ Bound w.

(** A computation that, on a sound page, ends normally on a sound page. *)
Definition Total {A} (c : M A) : Prop :=
  ∀ w, Sound w → Sound (c w).2 ∧ ∃ a, (c w).1 = Normal a.

(** The request a submit of [request] hands to the network when the
    user has edited the form by [edits]. *)
Definition response_post (request : Request) (edits : list Edit) : Http :=
  POST "/api/interaction/response"
    (ResponseBody (request_id request) (Table.kind_dispatch request edits) false).

(** The timer fields of the handler and of the window. *)
Definition timer_state (w : World) : option nat * bool * list nat * nat :=
  (checkInterval w, initialized w, intervals w, next_timer w).

(** Before [init] has succeeded no interval runs; afterwards the only
    interval there can be is the one [checkInterval] names. *)
Definition Timers (w : World) : Prop :=
  0 < next_timer w ∧
  match checkInterval w with
  | None => initialized w = false ∧ intervals w = []
  | Some t => initialized w = true ∧ t ≠ 0 ∧ (intervals w = [t] ∨ intervals w = [])
  end.

(** No own key of [pendingInteractions] is a name of [Object.prototype]. *)
Definition NoInherited (w : World) : Prop :=
  ∀ key, Js.inherited key = true → pendingInteractions w !! key = None.

(** The submit button of the modal reads [Done]. *)
Definition DoneLabel (w : World) : Prop :=
  submit_text <$> modal_element w = Some "Done".

(** What the standalone page shows in [#status-message] after a failed
    poll. *)
Definition poll_error_banner : Standalone.Status :=
  {| Standalone.status_text :=
       "Error checking for interactions. Please refresh the page.";
     Standalone.status_class := "error";
     Standalone.status_display := "block" |}.

End Invariants.

(** * Properties of the handler *)

Module HandlerFacts.

Import Handler.

Local Open Scope list_scope.
Local Open Scope nat_scope.

(** Unfolds the monad and the primitives down to matches on the fields
    of the world. *)
Ltac js_step :=
  unfold exec, completion, dispatch, click_submit, click_cancel, submit_handler,
    cancel_handler, bs_dismiss, submitResponse_begin, submitResponse_resume,
    cancelInteraction_begin, cancelInteraction_resume, submit_catch,
    cancel_catch, cleanup, read_response, content_area, delete_pending,
    checkPendingInteractions, checkPendingInteractions_begin,
    checkPendingInteractions_resume, check_catch, showInteraction, init,
    createModalElement, loadBootstrap, setInterval, clearInterval, modal_show,
    modal_hide, on_status, on_modal, fetch, console_log, console_error,
    try_catch, throw, gets, modify, mbind, mret, M_bind, M_ret in *;
  cbn in *.

(** ** Initialisation *)

Lemma init_when_initialized (w : World) :
  initialized w = true → init w = (Normal tt, w).
Proof. intros H. unfold init, gets, mbind, M_bind, mret, M_ret. by rewrite H. Qed.

Lemma init_succeeds (w : World) :
  initialized w = false → bootstrap_defined w = true →
  initialized (exec init w) = true ∧
  interactionModal (exec init w) = true ∧
  is_Some (modal_element (exec init w)) ∧
  intervals (exec init w) = intervals w ++ [next_timer w] ∧
  checkInterval (exec init w) = Some (next_timer w).
Proof.
  destruct w as [im pend ci ini me se hd bd iv nt nw cs]; cbn.
  intros -> ->. js_step. destruct me; cbn; eauto 10.
Qed.

Lemma init_without_bootstrap (w : World) :
  initialized w = false → bootstrap_defined w = false →
  initialized (exec init w) = false ∧
  intervals (exec init w) = intervals w ∧
  head (exec init w) = head w ++ [Stylesheet bootstrap_css; Script bootstrap_js].
Proof.
  destruct w as [im pend ci ini me se hd bd iv nt nw cs]; cbn.
  intros -> ->. js_step. destruct me; cbn; by rewrite <- ?app_assoc.
Qed.

(** C10. Once an [init] has run to its end and set [initialized], every
    later [init], however many there are and whichever path (the
    DOMContentLoaded listener, the ready-state timeout, the script's
    onload) makes the call, returns at its first line: the world is the
    one the first [init] left, with the same single polling interval and
    the same modal element. *)
Theorem init_idempotent (w : World) (calls : nat) :
  initialized (exec init w) = true →
  let w1 := exec init w in
  Nat.iter calls (exec init) w1 = w1 ∧
  init w1 = (Normal tt, w1) ∧
  intervals (Nat.iter calls (exec init) w1) = intervals w1 ∧
  modal_element (Nat.iter calls (exec init) w1) = modal_element w1.
Proof.
  intros H w1.
  assert (Hiter : Nat.iter calls (exec init) w1 = w1).
  { induction calls as [|n IH]; [done|].
    rewrite Nat.iter_succ, IH. unfold exec. by rewrite init_when_initialized. }
  rewrite Hiter. split_and!; try done. by apply init_when_initialized.
Qed.

Lemma init_idempotent_witness :
  initialized (exec init (constructor None None true)) = true ∧
  Nat.iter 3 (exec init) (exec init (constructor None None true))
  = exec init (constructor None None true).
Proof.
  split; [reflexivity|].
  apply (init_idempotent (constructor None None true) 3). reflexivity.
Defined.

(** ** The polling cycle *)

Lemma same_page_fields (w1 w2 : World) :
  same_page w1 w2 →
  interactionModal w1 = interactionModal w2 ∧
  pendingInteractions w1 = pendingInteractions w2 ∧
  modal_element w1 = modal_element w2 ∧
  status_element w1 = status_element w2 ∧
  intervals w1 = intervals w2 ∧
  network w1 = network w2.
Proof.
  destruct w1, w2. unfold same_page, with_console; cbn.
  intros [= -> -> -> -> -> -> -> -> -> -> ->]. done.
Qed.

Lemma same_page_console (w : World) (c : list Console) :
  same_page (with_console c w) w.
Proof. by destruct w. Qed.

(** One turn of the loop: skip a known id, or record and show the
    request and leave. *)
Lemma process_cons (reqId : string) (request : Request) (rest : Entries) (w : World) :
  process ((reqId, request) :: rest) w
  = if known (pendingInteractions w) reqId then process rest w
    else (console_log "New interaction request:";;
          modify (λ w, with_pendingInteractions
                         (<[reqId := request]> (pendingInteractions w)) w);;
          showInteraction request) w.
Proof.
  cbn [process]. unfold gets, mbind at 1, M_bind at 1.
  by destruct (known (pendingInteractions w) reqId).
Qed.

(** [showInteraction] in closed form: the modal subtree it leaves. *)
Lemma showInteraction_unfold (request : Request) (w : World) :
  showInteraction request w
  = match modal_element w with
    | None => (Throw null_element, w)
    | Some m =>
        let m' :=
          {| prompt_text := prompt request;
             description_text := description request;
             content := render request;
             submit_text := if decide (type request = "login")
                            then "Done" else submit_text m;
             submit_onclick := Some request;
             cancel_onclick := Some request;
             visible := visible m |} in
        if interactionModal w
        then (Normal tt, with_modal_element (Some (set_visible true m')) w)
        else (Throw null_receiver, with_modal_element (Some m') w)
    end.
Proof.
  destruct w as [im p ci ini me se hd bd iv nt nw cs].
  unfold showInteraction. destruct me as [m|]; [|reflexivity].
  destruct (decide (type request = "login")), im; reflexivity.
Qed.

(** The console is written, never read: a cycle does the same to two
    pages that differ in their consoles only. *)
Lemma process_same_page (data : Entries) (w1 w2 : World) :
  same_page w1 w2 →
  same_page (exec (process data) w1) (exec (process data) w2) ∧
  completion (process data) w1 = completion (process data) w2.
Proof.
  revert w1 w2. induction data as [|[reqId request] rest IH]; intros w1 w2 Hs.
  { done. }
  pose proof (same_page_fields _ _ Hs) as (_ & Hp & _).
  unfold exec, completion in *. rewrite !process_cons, <- Hp.
  destruct (known (pendingInteractions w1) reqId); [by apply IH|].
  destruct w1 as [im1 p1 ci1 in1 me1 se1 hd1 bd1 iv1 nt1 nw1 cs1].
  destruct w2 as [im2 p2 ci2 in2 me2 se2 hd2 bd2 iv2 nt2 nw2 cs2].
  unfold same_page, with_console in Hs. cbn in Hs.
  injection Hs as -> -> -> -> -> -> -> -> -> -> ->.
  unfold console_log, modify, mbind, M_bind. cbn.
  rewrite !showInteraction_unfold. cbn.
  destruct me2, im2; split; reflexivity.
Qed.

Lemma resume_same_page (reply : Poll) (w1 w2 : World) :
  same_page w1 w2 →
  same_page (exec (checkPendingInteractions_resume reply) w1)
            (exec (checkPendingInteractions_resume reply) w2) ∧
  completion (checkPendingInteractions_resume reply) w1
  = completion (checkPendingInteractions_resume reply) w2.
Proof.
  intros Hs. destruct reply as [data|error].
  - assert (Hs' : same_page (with_console (console w1 ++ [Log "Pending interactions:"]) w1)
                            (with_console (console w2 ++ [Log "Pending interactions:"]) w2)).
    { destruct w1, w2. unfold same_page, with_console in *. cbn in *. done. }
    destruct (process_same_page data _ _ Hs') as [Hw Hc].
    unfold exec, completion, checkPendingInteractions_resume, try_catch,
      console_log, check_catch, console_error, modify, mbind, M_bind in *.
    destruct (process data (with_console (console w1 ++ _) w1)) as [[[]|e1] v1],
             (process data (with_console (console w2 ++ _) w2)) as [[[]|e2] v2];
      cbn in *; try done.
  - destruct w1, w2. unfold same_page, with_console in *. cbn in *. done.
Qed.

(** C8. A cycle whose fetch of the pending set, or the parse of its
    reply, fails ends normally: the failure goes to the console and
    nothing else in the world changes (bookkeeping, display, timers).
    The interval stays registered, so its next tick fetches again, and a
    later cycle does to the page what it would have done had the failed
    one not happened. *)
Theorem poll_failure_survives (w : World) (error : Js.Error) :
  let cycle := checkPendingInteractions_resume (PollFailed error) in
  completion cycle w = Normal tt ∧
  exec cycle w = with_console (console w ++ [Err "Error checking for interactions:"]) w ∧
  pendingInteractions (exec cycle w) = pendingInteractions w ∧
  modal_element (exec cycle w) = modal_element w ∧
  status_element (exec cycle w) = status_element w ∧
  intervals (exec cycle w) = intervals w ∧
  (∀ timer, timer ∈ intervals w →
     network (exec (dispatch (Tick timer)) (exec cycle w))
     = network w ++ [GET "/api/interaction/pending"]) ∧
  (∀ reply,
     same_page (exec (checkPendingInteractions_resume reply) (exec cycle w))
               (exec (checkPendingInteractions_resume reply) w) ∧
     completion (checkPendingInteractions_resume reply) (exec cycle w)
     = completion (checkPendingInteractions_resume reply) w).
Proof.
  cbn zeta. split_and!; try by destruct w.
  - intros timer Hin. destruct w as [im p ci ini me se hd bd iv nt nw cs].
    js_step. by destruct (decide (timer ∈ iv)).
  - intros reply. apply resume_same_page.
    change (exec (checkPendingInteractions_resume (PollFailed error)) w)
      with (with_console (console w ++ [Err "Error checking for interactions:"]) w).
    apply same_page_console.
Qed.

(** ** The form and the kind dispatch *)

Lemma imap_compose {A B C} (g : nat → B → C) (f : nat → A → B) (l : list A) :
  imap g (imap f l) = imap (λ j x, g j (f j x)) l.
Proof.
  revert f g. induction l as [|x l IH]; intros f g; [done|].
  cbn. f_equal. apply IH.
Qed.

Lemma render_selection_marked (options : list string) :
  (λ option, (option, false)) <$> options = marked options None.
Proof. unfold marked. rewrite <- imap_const. by apply imap_ext. Qed.

Lemma choose_marked (options : list string) (chosen : option nat) (index : nat) :
  imap (λ j (radio : string * bool), (radio.1, bool_decide (j = index)))
       (marked options chosen)
  = marked options (Some index).
Proof.
  unfold marked. rewrite imap_compose. apply imap_ext. intros j o _. cbn.
  f_equal. apply bool_decide_ext. naive_solver.
Qed.

Lemma find_marked (options : list string) (chosen : option nat) (k : nat) :
  List.find snd (imap (λ j option, (option, bool_decide (Some (k + j) = chosen))) options)
  = match chosen with
    | Some i => if decide (k ≤ i) then (λ o, (o, true)) <$> options !! (i - k) else None
    | None => None
    end.
Proof.
  revert k. induction options as [|o options IH]; intros k.
  { cbn. destruct chosen; [|done]. by case_decide. }
  rewrite imap_cons. cbn [List.find snd].
  case_bool_decide as Heq.
  - subst chosen. rewrite decide_True by lia.
    by replace (k + 0 - k) with 0 by lia.
  - erewrite imap_ext; [rewrite (IH (S k))|]; last first.
    { intros j x _. cbn. f_equal. apply bool_decide_ext.
      by replace (k + S j) with (S k + j) by lia. }
    destruct chosen as [i|]; [|done].
    destruct (decide (k = i)) as [->|Hne].
    { exfalso. apply Heq. f_equal. lia. }
    destruct (decide (S k ≤ i)), (decide (k ≤ i)); try lia; [|done].
    by replace (i - k) with (S (i - S k)) by lia.
Qed.

Lemma checked_radio_marked (options : list string) (chosen : option nat) :
  checked_radio (SelectionRadios (marked options chosen))
  = (chosen ≫= λ i, options !! i).
Proof.
  unfold checked_radio, marked.
  pose proof (find_marked options chosen 0) as H. cbn in H. rewrite H.
  destruct chosen as [i|]; [|done]. cbn.
  rewrite decide_True by lia. replace (i - 0) with i by lia.
  by destruct (options !! i).
Qed.

Lemma edit_text (edits : list Edit) (value : string) :
  edit_content (TextInput value) edits
  = TextInput (foldl (λ text e, if e is TypeText t then t else text) value edits).
Proof.
  revert value. induction edits as [|e edits IH]; intros value; [done|].
  unfold edit_content in *. cbn. destruct e; cbn; apply IH.
Qed.

Lemma edit_check (edits : list Edit) (checked : bool) :
  edit_content (ConfirmCheck checked) edits
  = ConfirmCheck (foldl (λ state e, if e is ToggleCheck then negb state else state)
                        checked edits).
Proof.
  revert checked. induction edits as [|e edits IH]; intros checked; [done|].
  unfold edit_content in *. cbn. destruct e; cbn; apply IH.
Qed.

Lemma edit_radios (options : list string) (edits : list Edit) (chosen : option nat) :
  edit_content (SelectionRadios (marked options chosen)) edits
  = SelectionRadios
      (marked options
         (foldl (λ chosen e,
                   if e is ChooseRadio i
                   then (if decide (i < length options) then Some i else chosen)
                   else chosen)
                chosen edits)).
Proof.
  revert chosen. induction edits as [|e edits IH]; intros chosen; [done|].
  unfold edit_content in *. cbn [foldl]. destruct e as [t| |i]; cbn [apply_edit]; try apply IH.
  assert (Hlen : length (marked options chosen) = length options)
    by apply length_imap.
  destruct (decide (i < length (marked options chosen))) as [H1|H1],
           (decide (i < length options)) as [H2|H2]; try lia.
  - rewrite choose_marked. apply IH.
  - apply IH.
Qed.

Lemma edit_login (edits : list Edit) :
  edit_content LoginNotice edits = LoginNotice.
Proof.
  induction edits as [|e edits IH]; [done|].
  unfold edit_content in *. cbn. by destruct e.
Qed.

Lemma edit_generic (edits : list Edit) :
  edit_content GenericNotice edits = GenericNotice.
Proof.
  induction edits as [|e edits IH]; [done|].
  unfold edit_content in *. cbn. by destruct e.
Qed.

(** The form of a displayed request, by kind. *)
Lemma form_of_request (request : Request) (edits : list Edit) :
  edit_content (render request) edits
  = if decide (type request = "text_input") then TextInput (Table.field_text edits)
    else if decide (type request = "login") then LoginNotice
    else if decide (type request = "confirmation")
         then ConfirmCheck (Table.toggle_state edits)
    else if decide (type request = "selection")
         then SelectionRadios
                (marked (options request) (Table.chosen_index (options request) edits))
    else GenericNotice.
Proof.
  unfold render. repeat case_decide.
  - apply edit_text.
  - apply edit_login.
  - apply edit_check.
  - rewrite render_selection_marked. apply edit_radios.
  - apply edit_generic.
Qed.

Lemma read_response_form (request : Request) (edits : list Edit) (w : World) (m : ModalEl) :
  modal_element w = Some m →
  content m = edit_content (render request) edits →
  read_response request w = (Normal (Table.kind_dispatch request edits), w).
Proof.
  intros Hm Hc. unfold read_response, content_area, gets, mbind, M_bind, mret, M_ret.
  rewrite Hm, Hc, form_of_request. unfold Table.kind_dispatch, Table.chosen_option.
  repeat case_decide; try done.
  by rewrite checked_radio_marked.
Qed.

Lemma read_response_displaying (w : World) (request : Request) (edits : list Edit) :
  Displaying w request edits →
  read_response request w = (Normal (Table.kind_dispatch request edits), w).
Proof.
  intros (_ & m & Hm & _ & _ & _ & Hc). by eapply read_response_form.
Qed.



(** ** What a cycle displays *)

Lemma resume_data_unfold (data : Entries) (w : World) :
  checkPendingInteractions_resume (PollData data) w
  = match process data (with_console (console w ++ [Log "Pending interactions:"]) w) with
    | (Normal a, v) => (Normal a, v)
    | (Throw e, v) => (Normal tt, with_console (console v ++ [Err "Error checking for interactions:"]) v)
    end.
Proof. reflexivity. Qed.

Lemma displayed_with_console (c : list Console) (w : World) :
  displayed (with_console c w) = displayed w.
Proof. by destruct w. Qed.





(** ** Submit and cancel *)

Lemma bind_run {A B} (c : M A) (f : A → M B) (w w' : World) (a : A) :
  c w = (Normal a, w') → (c ≫= f) w = f a w'.
Proof. intros H. unfold mbind, M_bind. by rewrite H. Qed.

Lemma submit_handler_run (w : World) (m : ModalEl) :
  modal_element w = Some m → submit_handler w = (Normal (submit_onclick m), w).
Proof.
  intros H. unfold submit_handler, gets, mbind, M_bind, mret, M_ret. by rewrite H.
Qed.

Lemma cancel_handler_run (w : World) (m : ModalEl) :
  modal_element w = Some m → cancel_handler w = (Normal (cancel_onclick m), w).
Proof.
  intros H. unfold cancel_handler, gets, mbind, M_bind, mret, M_ret. by rewrite H.
Qed.

Lemma submit_begin_run (w : World) (request : Request) (edits : list Edit) (st : StatusEl) :
  Displaying w request edits → status_element w = Some st →
  submitResponse_begin request w
  = (Normal Awaiting,
     with_network
       (network w ++ [POST "/api/interaction/response"
                        (ResponseBody (request_id request)
                           (Table.kind_dispatch request edits) false)])
       (with_status_element (Some notifying) w)).
Proof.
  intros Hd Hst. unfold submitResponse_begin.
  rewrite (bind_run _ _ _ _ _ (read_response_displaying _ _ _ Hd)).
  destruct w as [im p ci ini me se hd bd iv nt nw cs]. cbn in Hst. subst se.
  reflexivity.
Qed.

(** Without the status element the handler fails before it reaches the
    fetch, and fails again in its [catch]: nothing is sent. *)
Lemma submit_begin_without_status (w : World) (request : Request) (edits : list Edit) :
  Displaying w request edits → status_element w = None →
  submitResponse_begin request w
  = (Throw null_element,
     with_console (console w ++ [Err "Error submitting response:"]) w).
Proof.
  intros Hd Hst. unfold submitResponse_begin.
  rewrite (bind_run _ _ _ _ _ (read_response_displaying _ _ _ Hd)).
  destruct w as [im p ci ini me se hd bd iv nt nw cs]. cbn in Hst. subst se.
  reflexivity.
Qed.

Lemma submit_resume_reply (w : World) (request : Request) (status : nat)
    (m : ModalEl) (st : StatusEl) :
  interactionModal w = true → modal_element w = Some m → status_element w = Some st →
  submitResponse_resume request (Js.Response status) w
  = (Normal Finished,
     with_status_element
       (Some {| textContent := "Agent notified! Continuing task...";
                className := "alert alert-success mt-3";
                display := display st |})
       (with_modal_element (Some (set_visible false m))
          (with_pendingInteractions
             (delete (request_id request) (pendingInteractions w)) w))).
Proof.
  destruct w as [im p ci ini me se hd bd iv nt nw cs]. cbn.
  intros -> -> ->. reflexivity.
Qed.

Lemma submit_resume_rejected (w : World) (request : Request) (error : Js.Error)
    (st : StatusEl) :
  status_element w = Some st →
  submitResponse_resume request (Js.Rejected error) w
  = (Normal Finished,
     with_status_element
       (Some {| textContent := "Error notifying agent: " +:+ Js.message error;
                className := "alert alert-danger mt-3";
                display := display st |})
       (with_console (console w ++ [Err "Error submitting response:"]) w)).
Proof.
  destruct w as [im p ci ini me se hd bd iv nt nw cs]. cbn.
  intros ->. reflexivity.
Qed.

Lemma cancel_resume_reply (w : World) (request : Request) (status : nat) (m : ModalEl) :
  interactionModal w = true → modal_element w = Some m →
  cancelInteraction_resume request (Js.Response status) w
  = (Normal Finished,
     with_modal_element (Some (set_visible false m))
       (with_pendingInteractions
          (delete (request_id request) (pendingInteractions w)) w)).
Proof.
  destruct w as [im p ci ini me se hd bd iv nt nw cs]. cbn.
  intros -> ->. reflexivity.
Qed.

Lemma cancel_resume_rejected (w : World) (request : Request) (error : Js.Error) :
  cancelInteraction_resume request (Js.Rejected error) w
  = (Normal Finished,
     with_console (console w ++ [Err "Error cancelling interaction:"]) w).
Proof. reflexivity. Qed.



(** C7. Pressing Cancel on a displayed request hands the network one
    POST to [/api/interaction/cancel] whose body carries the id of the
    displayed request. When the reply arrives, in whatever world [w'] the
    page has reached by then, the handler does what submit does to the
    local set and the display: the entry of that id is deleted from
    [pendingInteractions] and the modal is hidden, so the client is
    idle. *)
Theorem cancel_delivers_cancellation (w w' : World) (request : Request)
    (edits : list Edit) (status : nat) :
  Displaying w request edits → Ready w' →
  let reply := cancelInteraction_resume request (Js.Response status) in
  completion (dispatch ClickCancel) w = Normal tt ∧
  network (exec (dispatch ClickCancel) w)
  = network w ++ [POST "/api/interaction/cancel" (CancelBody (request_id request))] ∧
  completion reply w' = Normal Finished ∧
  network (exec reply w') = network w' ∧
  pendingInteractions (exec reply w')
  = delete (request_id request) (pendingInteractions w') ∧
  pendingInteractions (exec reply w') !! request_id request = None ∧
  Idle (exec reply w') ∧
  (∀ st, status_element w' = Some st →
     pendingInteractions (exec reply w')
     = pendingInteractions (exec (submitResponse_resume request (Js.Response status)) w') ∧
     modal_element (exec reply w')
     = modal_element (exec (submitResponse_resume request (Js.Response status)) w')).
Proof.
  intros (_ & m & Hm & _ & _ & Hc & _) [Him [m' Hm']]. cbn zeta.
  unfold exec, completion, Idle.
  rewrite (cancel_resume_reply _ _ _ _ Him Hm').
  split_and!.
  - unfold dispatch, click_cancel.
    by rewrite (bind_run _ _ _ _ _ (cancel_handler_run _ _ Hm)), Hc.
  - unfold dispatch, click_cancel.
    rewrite (bind_run _ _ _ _ _ (cancel_handler_run _ _ Hm)), Hc.
    by destruct w.
  - done.
  - by destruct w'.
  - by destruct w'.
  - destruct w'. cbn. apply lookup_delete_eq.
  - destruct w'. by cbn.
  - intros st Hst. rewrite (submit_resume_reply _ _ _ _ _ Him Hm' Hst).
    by destruct w'.
Qed.

Lemma cancel_delivers_cancellation_witness :
  Displaying (Sample.showing Sample.login_request) Sample.login_request [] ∧
  Ready (exec (dispatch ClickCancel) (Sample.showing Sample.login_request)) ∧
  network (exec (dispatch ClickCancel) (Sample.showing Sample.login_request))
  = [GET "/api/interaction/pending";
     POST "/api/interaction/cancel" (CancelBody "req-1")].
Proof.
  assert (H1 : Displaying (Sample.showing Sample.login_request) Sample.login_request []).
  { split; [reflexivity|]. eexists. split_and!; reflexivity. }
  assert (H2 : Ready (exec (dispatch ClickCancel) (Sample.showing Sample.login_request))).
  { split; [reflexivity|]. eexists. reflexivity. }
  split_and!; [exact H1|exact H2|].
  exact (proj1 (proj2 (cancel_delivers_cancellation _ _ _ _ 200 H1 H2))).
Defined.

(** ** Replies the handler does not tell apart *)




(** ** After a request has been resolved *)





(** ** Where the handler falls short *)

(** C4, at a cancel whose fetch is rejected. The handler ends without an
    uncaught error and keeps the entry of the id, but it writes to the
    console only: the status element is left as it was, hidden and
    empty. The Cancel button has closed the modal meanwhile, so the form
    is gone, and the id, still known, is not shown by later polls. *)
Theorem failed_cancel_is_silent :
  let w := Sample.showing Sample.login_request in
  let failure := Js.Rejected (Js.NetworkError "Failed to fetch") in
  let result := run [ClickCancel; CancelSettled Sample.login_request failure] w in
  displayed w = Some Sample.login_request ∧
  result.1 = [] ∧
  status_element result.2 = Some Sample.hidden_status ∧
  console result.2 = console w ++ [Err "Error cancelling interaction:"] ∧
  network result.2
  = network w ++ [POST "/api/interaction/cancel" (CancelBody "req-1")] ∧
  pendingInteractions result.2 !! "req-1" = Some Sample.login_request ∧
  displayed result.2 = None ∧
  displayed (exec (checkPendingInteractions
                     (PollData [("req-1", Sample.login_request)])) result.2)
  = None.
Proof. cbn zeta. split_and!; vm_compute; reflexivity. Qed.

(** C1, at a poll that finds a second pending request while the first is
    on display. The handler takes the first id it does not know and
    shows it: the form of the displayed request is replaced and the
    buttons are bound to the newcomer. The replaced request stays known,
    so no later poll brings it back. *)
Theorem poll_replaces_displayed_request :
  let w := Sample.showing Sample.login_request in
  let reply := PollData [("req-1", Sample.login_request);
                         ("req-2", Sample.text_request)] in
  let after := exec (checkPendingInteractions reply) w in
  displayed w = Some Sample.login_request ∧
  content <$> modal_element w = Some LoginNotice ∧
  displayed after = Some Sample.text_request ∧
  content <$> modal_element after = Some (TextInput "") ∧
  pendingInteractions after !! "req-1" = Some Sample.login_request ∧
  displayed (exec (checkPendingInteractions reply) after) = Some Sample.text_request.
Proof. cbn zeta. split_and!; vm_compute; reflexivity. Qed.

(** ** Reachability of the states the theorems speak of *)

Lemma preserves_ret {A} (a : A) : Preserves (mret a).
Proof. by intros w Hr. Qed.

Lemma preserves_throw {A} (e : Js.Error) : Preserves (@throw A e).
Proof. by intros w Hr. Qed.

Lemma preserves_gets {A} (f : World → A) : Preserves (gets f).
Proof. by intros w Hr. Qed.

Lemma preserves_bind {A B} (c : M A) (f : A → M B) :
  Preserves c → (∀ a, Preserves (f a)) → Preserves (c ≫= f).
Proof.
  intros Hc Hf w Hr. specialize (Hc w Hr). unfold mbind, M_bind.
  destruct (c w) as [[a|e] v]; [by apply Hf|done].
Qed.

Lemma preserves_try {A} (body : M A) (handler : Js.Error → M A) :
  Preserves body → (∀ e, Preserves (handler e)) → Preserves (try_catch body handler).
Proof.
  intros Hb Hh w Hr. specialize (Hb w Hr). unfold try_catch.
  destruct (body w) as [[a|e] v]; [done|by apply Hh].
Qed.

Lemma preserves_modify (f : World → World) :
  (∀ w, Ready w → Ready (f w)) → Preserves (modify f).
Proof. intros Hf w Hr. by apply Hf. Qed.

Lemma preserves_on_modal (f : ModalEl → ModalEl) : Preserves (on_modal f).
Proof.
  intros w [Him [m Hm]]. unfold on_modal. rewrite Hm.
  destruct w. split; cbn in *; eauto.
Qed.

Lemma preserves_on_status (f : StatusEl → StatusEl) : Preserves (on_status f).
Proof.
  intros w Hr. unfold on_status. destruct (status_element w); [|done].
  by destruct w.
Qed.

Lemma preserves_setInterval : Preserves setInterval.
Proof. intros w Hr. by destruct w. Qed.

Lemma preserves_bs_dismiss : Preserves bs_dismiss.
Proof.
  intros w [Him [m Hm]]. unfold bs_dismiss. destruct w. cbn in *. subst.
  split; cbn; eauto.
Qed.

(** One step towards [Preserves c] for a [c] built from the primitives. *)
Ltac preserves_step :=
  first
    [ assumption
    | apply preserves_ret | apply preserves_throw | apply preserves_gets
    | apply preserves_on_modal | apply preserves_on_status
    | apply preserves_setInterval | apply preserves_bs_dismiss
    | case_decide | case_match
    | lazymatch goal with
      | |- Preserves (modify _) =>
          apply preserves_modify;
          let w := fresh in intros w [? [? ?]]; destruct w; cbn in *; subst;
          split; cbn; eauto
      | |- Preserves (mbind _ _) => apply preserves_bind; [|intros ?]
      | |- Preserves (try_catch _ _) => apply preserves_try; [|intros ?]
      end ].

Ltac preserves_unfold :=
  unfold init, cleanup, checkPendingInteractions_begin,
    checkPendingInteractions_resume, click_submit, click_cancel,
    submitResponse_begin, submitResponse_resume, cancelInteraction_begin,
    cancelInteraction_resume, showInteraction;
  unfold createModalElement, loadBootstrap, clearInterval, check_catch,
    submit_handler, cancel_handler, submit_catch, cancel_catch, read_response,
    delete_pending, modal_show, modal_hide;
  unfold content_area, console_log, console_error, fetch.

Lemma preserves_process (data : Entries) : Preserves (process data).
Proof.
  induction data as [|[k r] rest IH]; cbn [process];
    preserves_unfold; repeat preserves_step.
Qed.

Ltac preserves :=
  preserves_unfold; repeat first [apply preserves_process | preserves_step].

(** Every event keeps the page ready. *)
Lemma dispatch_Ready (ev : Event) (w : World) :
  Ready w → Ready (exec (dispatch ev) w).
Proof.
  revert w. change (Preserves (dispatch ev)).
  destruct ev; cbn [dispatch]; preserves.
Qed.

(** A successful [init] makes the page ready, and every run keeps it so. *)
Lemma run_Ready (events : list Event) (w : World) :
  Ready w → Ready (run events w).2.
Proof.
  revert w. induction events as [|ev events IH]; intros w Hr; [done|].
  cbn. pose proof (dispatch_Ready ev w Hr) as H. unfold exec in H.
  destruct (dispatch ev w) as [[[]|e] v]; cbn in *.
  - by apply IH.
  - specialize (IH v H). by destruct (run events v).
Qed.

(** Editing the form of a displayed request keeps it displayed. *)
Lemma edit_Displaying (w : World) (request : Request) (edits : list Edit) (e : Edit) :
  Displaying w request edits →
  Displaying (exec (dispatch (UserEdit e)) w) request (edits ++ [e]).
Proof.
  intros (Him & m & Hm & Hv & Hs & Hc & Hcont).
  destruct w as [im p ci ini me se hd bd iv nt nw cs]. cbn in *. subst im me.
  split; [done|]. eexists. split; [reflexivity|]. cbn.
  split_and!; try done.
  unfold edit_content in *. by rewrite foldl_snoc, Hcont.
Qed.

End HandlerFacts.

(** * Properties of the standalone page *)

Module StandaloneFacts.

Import Standalone.

Local Open Scope list_scope.

(** While a request is current, a poll changes nothing on the page. *)
Lemma poll_keeps_current (p : Page) (request : Request) (data : Entries) :
  currentRequest p = Some request →
  checkPendingInteractions_resume (PollData data) p = p.
Proof.
  intros H. unfold checkPendingInteractions_resume. rewrite H.
  by destruct (snd <$> data).
Qed.

(** With no current request, a poll takes the first request of a
    non-empty reply. *)
Lemma poll_takes_first (p : Page) (reqId : string) (request : Request) (rest : Entries) :
  currentRequest p = None →
  currentRequest (checkPendingInteractions_resume (PollData ((reqId, request) :: rest)) p)
  = Some request.
Proof.
  intros H. unfold checkPendingInteractions_resume. rewrite H. cbn.
  unfold displayRequest. by case_decide.
Qed.

(** C9. Whatever the kind of the current request, the standalone page's
    submit posts the string ["completed"] as the response, with the id
    of the current request and [cancelled: false]; it reads no form and
    applies no kind dispatch. With no current request it posts nothing. *)
Theorem standalone_submit_sends_completed (p : Page) :
  network (submitResponse_begin p)
  = network p ++
    match currentRequest p with
    | Some request =>
        [POST "/api/interaction/response"
           (ResponseBody (request_id request) (Js.Str "completed") false)]
    | None => []
    end.
Proof.
  unfold submitResponse_begin. destruct (currentRequest p) as [request|].
  - by destruct p.
  - by rewrite app_nil_r.
Qed.

(** The page's value and the handler's differ for a request that is not
    a login: a text request is answered ["completed"] here and with the
    field's text there. *)
Lemma standalone_ignores_kind :
  let p := checkPendingInteractions
             (PollData [("req-2", Sample.text_request)]) loaded in
  network (submitResponse_begin p)
  = [GET "/api/interaction/pending";
     POST "/api/interaction/response" (ResponseBody "req-2" (Js.Str "completed") false)] ∧
  Table.kind_dispatch Sample.text_request [Handler.TypeText "hello"] = Js.Str "hello".
Proof. split; reflexivity. Qed.

End StandaloneFacts.

(** * More on the handler: initialisation, timers, polling *)

Module HandlerMore.

Import Handler Invariants HandlerFacts.

Local Open Scope list_scope.
Local Open Scope nat_scope.

(** ** Keeping an invariant *)

Section Keeping.

Context (I : World → Prop).

Lemma keeps_ret {A} (a : A) : Keeps I (mret a).
Proof. by intros w Hw. Qed.

Lemma keeps_throw {A} (e : Js.Error) : Keeps I (@throw A e).
Proof. by intros w Hw. Qed.

Lemma keeps_gets {A} (f : World → A) : Keeps I (gets f).
Proof. by intros w Hw. Qed.

Lemma keeps_bind {A B} (c : M A) (f : A → M B) :
  Keeps I c → (∀ a, Keeps I (f a)) → Keeps I (c ≫= f).
Proof.
  intros Hc Hf w Hw. specialize (Hc w Hw). unfold mbind, M_bind.
  destruct (c w) as [[a|e] v]; [by apply Hf|done].
Qed.

Lemma keeps_try {A} (body : M A) (handler : Js.Error → M A) :
  Keeps I body → (∀ e, Keeps I (handler e)) → Keeps I (try_catch body handler).
Proof.
  intros Hb Hh w Hw. specialize (Hb w Hw). unfold try_catch.
  destruct (body w) as [[a|e] v]; [done|by apply Hh].
Qed.

Lemma keeps_modify (f : World → World) :
  (∀ w, I w → I (f w)) → Keeps I (modify f).
Proof. intros Hf w Hw. by apply Hf. Qed.

Lemma keeps_on_modal (f : ModalEl → ModalEl) :
  (∀ w m, I w → modal_element w = Some m → I (with_modal_element (Some (f m)) w)) →
  Keeps I (on_modal f).
Proof.
  intros Hf w Hw. unfold on_modal. destruct (modal_element w) eqn:Hm; [|done].
  by apply Hf.
Qed.

Lemma keeps_on_status (f : StatusEl → StatusEl) :
  (∀ w e, I w → I (with_status_element (Some e) w)) → Keeps I (on_status f).
Proof.
  intros Hf w Hw. unfold on_status. destruct (status_element w); [|done].
  by apply Hf.
Qed.

(** An invariant every event keeps holds along every run. *)
Lemma run_keeps (events : list Event) (w : World) :
  (∀ ev, Keeps I (dispatch ev)) → I w → I (run events w).2.
Proof.
  intros Hk. revert w. induction events as [|ev events IH]; intros w Hw; [done|].
  cbn. pose proof (Hk ev w Hw) as H.
  destruct (dispatch ev w) as [[[]|e] v]; cbn in *.
  - by apply IH.
  - specialize (IH v H). by destruct (run events v).
Qed.

End Keeping.

(** The methods, opened down to the primitives ([init], [cleanup] and
    [process] stay closed). *)
Ltac open_methods :=
  unfold checkPendingInteractions_begin, checkPendingInteractions_resume,
    click_submit, click_cancel, submitResponse_begin, submitResponse_resume,
    cancelInteraction_begin, cancelInteraction_resume, showInteraction;
  unfold check_catch, submit_handler, cancel_handler, submit_catch,
    cancel_catch, read_response, delete_pending, modal_show, modal_hide;
  unfold content_area, console_log, console_error, fetch.

(** One structural step towards [Keeps I c]; [leaf] closes the updates. *)
Ltac keeps_step leaf :=
  first
    [ assumption
    | apply keeps_ret | apply keeps_throw | apply keeps_gets
    | case_decide | case_match
    | lazymatch goal with
      | |- Keeps _ (mbind _ _) => apply keeps_bind; [|intros ?]
      | |- Keeps _ (try_catch _ _) => apply keeps_try; [|intros ?]
      | |- Keeps _ (modify _) => apply keeps_modify; leaf
      | |- Keeps _ (on_modal _) => apply keeps_on_modal; leaf
      | |- Keeps _ (on_status _) => apply keeps_on_status; leaf
      | |- Keeps _ bs_dismiss => unfold bs_dismiss; apply keeps_modify; leaf
      | |- Keeps _ setInterval => leaf
      end ].

(** ** The timers *)

(** Closes an update that leaves the timer fields alone. *)
Ltac same_fields :=
  let w := fresh in intros w; intros; destruct w; cbn in *; assumption.

Lemma process_timer_state (ts : option nat * bool * list nat * nat) (data : Entries) :
  Keeps (λ w, timer_state w = ts) (process data).
Proof.
  induction data as [|[k r] rest IH]; cbn [process]; open_methods;
    repeat keeps_step same_fields.
Qed.

(** Only [init] and [cleanup] touch the timers. *)
Lemma dispatch_timer_state (ev : Event) (w : World) :
  ev ∉ [DOMContentLoaded; ReadyTimeout; ScriptLoaded; BeforeUnload] →
  timer_state (exec (dispatch ev) w) = timer_state w.
Proof.
  intros Hev.
  assert (Hk : Keeps (λ v, timer_state v = timer_state w) (dispatch ev)).
  { destruct ev; try (exfalso; apply Hev; set_solver);
      cbn [dispatch]; open_methods;
      repeat first [apply process_timer_state | keeps_step same_fields]. }
  by apply Hk.
Qed.

Lemma Timers_ext (w w' : World) :
  timer_state w' = timer_state w → Timers w → Timers w'.
Proof.
  unfold timer_state, Timers. intros [= Hc Hi Hv Hn]. by rewrite Hc, Hi, Hv, Hn.
Qed.

Lemma init_Timers : Keeps Timers init.
Proof.
  intros w. destruct w as [im p ci ini me se hd bd iv nt nw cs].
  unfold Timers. cbn. intros [Hn H].
  destruct ini.
  { by destruct ci. }
  destruct ci as [t|]; [by destruct H|]. destruct H as [_ ->].
  destruct bd, me; js_step; (split; [lia|]); split_and?; eauto with lia.
Qed.

Lemma cleanup_Timers : Keeps Timers cleanup.
Proof.
  intros w. destruct w as [im p ci ini me se hd bd iv nt nw cs].
  unfold Timers. cbn. intros [Hn H].
  destruct ci as [t|]; [|done]. unfold cleanup, gets, mbind, M_bind. cbn.
  destruct (decide (t = 0)); [done|]. cbn. split; [done|].
  destruct H as (-> & _ & [-> | ->]); cbn; [|eauto].
  rewrite decide_False by naive_solver. eauto.
Qed.

(** Closes [ev ∉ [...]] for an event of another constructor. *)
Ltac other_event :=
  let H := fresh in
  intros H; repeat (apply elem_of_cons in H as [H|H]; [discriminate|]);
  by apply elem_of_nil in H.

Lemma dispatch_Timers (ev : Event) : Keeps Timers (dispatch ev).
Proof.
  assert (Hleaf : ∀ f : World → World,
            (∀ v, timer_state (f v) = timer_state v) → Keeps Timers (modify f)).
  { intros f Hf v Hv. eapply Timers_ext; [apply Hf|done]. }
  destruct ev;
    try (intros w Hw; eapply Timers_ext; [|done];
         apply dispatch_timer_state; other_event);
    cbn [dispatch]; unfold console_log.
  - apply keeps_bind; [apply Hleaf; by intros []|intros _; apply init_Timers].
  - apply init_Timers.
  - apply keeps_bind; [apply Hleaf; by intros []|intros _].
    apply keeps_bind; [apply Hleaf; by intros []|intros _; apply init_Timers].
  - apply cleanup_Timers.
Qed.

Lemma constructor_Timers (modal : option ModalEl) (status : option StatusEl)
    (bootstrap : bool) :
  Timers (constructor modal status bootstrap).
Proof. unfold Timers. cbn. split; [lia|done]. Qed.

(** X1. Whatever the page looked like when the handler was constructed
    and whatever happens afterwards (any number of [init] calls from the
    three callers, ticks, replies, clicks, unloads, in any order), at most
    one polling interval is registered at any time. *)
Theorem at_most_one_interval (events : list Event) (modal : option ModalEl)
    (status : option StatusEl) (bootstrap : bool) :
  length (intervals (run events (constructor modal status bootstrap)).2) ≤ 1.
Proof.
  pose proof (run_keeps Timers events _ dispatch_Timers
                (constructor_Timers modal status bootstrap)) as [_ H].
  destruct (checkInterval _); [destruct H as (_ & _ & [-> | ->])|destruct H as [_ ->]];
    cbn; lia.
Qed.

(** An initialised handler whose interval has been cleared. *)
Lemma stopped_stays (ev : Event) :
  Keeps (λ w, Timers w ∧ initialized w = true ∧ intervals w = []) (dispatch ev).
Proof.
  intros w (Ht & Hi & Hv). split; [by apply dispatch_Timers|].
  destruct ev;
    try (lazymatch goal with
         | |- context [dispatch ?e w] =>
             pose proof (dispatch_timer_state e w ltac:(other_event)) as Hts;
             unfold timer_state, exec in Hts;
             set (v := (dispatch e w).2) in *
         end;
         injection Hts as Hc' Hi' Hv' Hn'; by rewrite Hi', Hv');
    destruct w as [im p ci ini me se hd bd iv nt nw cs]; cbn in *; subst; try done.
  destruct ci as [t|]; [|done]. unfold cleanup, gets, mbind, M_bind. cbn.
  by destruct (decide (t = 0)).
Qed.

(** X2. Once an initialised handler has run [cleanup] (the page's
    [beforeunload] listener), no interval is registered, whatever happens
    later: further [init] calls return at once, and a tick of any timer
    finds no interval and fetches nothing. *)
Theorem cleanup_stops_polling (w : World) (later : list Event) (timer : nat) :
  Timers w → initialized w = true →
  let w' := (run (BeforeUnload :: later) w).2 in
  intervals w' = [] ∧ initialized w' = true ∧
  dispatch (Tick timer) w' = (Normal tt, w').
Proof.
  intros Ht Hi. cbn zeta.
  assert (Hstop : Timers (exec (dispatch BeforeUnload) w) ∧
                  initialized (exec (dispatch BeforeUnload) w) = true ∧
                  intervals (exec (dispatch BeforeUnload) w) = []).
  { split; [by apply dispatch_Timers|].
    destruct w as [im p ci ini me se hd bd iv nt nw cs].
    destruct Ht as [_ Ht]. cbn in *. subst ini.
    destruct ci as [t|]; [|by destruct Ht]. destruct Ht as (_ & Hne & Hv).
    unfold exec, cleanup, gets, mbind, M_bind. cbn.
    rewrite decide_False by done. cbn. split; [done|].
    destruct Hv as [-> | ->]; cbn; [|done]. by rewrite decide_False by naive_solver. }
  pose proof (run_keeps _ later _ stopped_stays Hstop) as (_ & Hi' & Hv').
  assert (Hrun : (run (BeforeUnload :: later) w).2
                 = (run later (exec (dispatch BeforeUnload) w)).2).
  { cbn [run]. unfold exec.
    destruct (dispatch BeforeUnload w) as [[[]|e] v]; cbn; [done|].
    by destruct (run later v). }
  rewrite Hrun. split_and!; [done..|].
  destruct (run later (exec (dispatch BeforeUnload) w)).2
    as [im p ci ini me se hd bd iv nt nw cs].
  cbn in Hv'. subst iv. reflexivity.
Qed.

Lemma cleanup_stops_polling_witness :
  Timers Sample.ready ∧
  intervals (run [BeforeUnload; ReadyTimeout; Tick 1] Sample.ready).2 = [].
Proof.
  assert (H1 : Timers Sample.ready).
  { split; [vm_compute; lia|]. vm_compute.
    split; [reflexivity|]. split; [discriminate|by left]. }
  split; [exact H1|].
  exact (proj1 (cleanup_stops_polling Sample.ready [ReadyTimeout; Tick 1] 1
                  H1 eq_refl)).
Defined.

(** ** [init] while Bootstrap is missing, and once it arrives *)

Lemma init_no_bootstrap_step (w : World) :
  initialized w = false → bootstrap_defined w = false →
  completion init w = Normal tt ∧
  initialized (exec init w) = false ∧
  bootstrap_defined (exec init w) = false ∧
  timer_state (exec init w) = timer_state w ∧
  interactionModal (exec init w) = interactionModal w ∧
  head (exec init w) = head w ++ [Stylesheet bootstrap_css; Script bootstrap_js].
Proof.
  destruct w as [im p ci ini me se hd bd iv nt nw cs]. cbn.
  intros -> ->. js_step. destruct me; cbn; by rewrite <- ?app_assoc.
Qed.

Lemma join_replicate_snoc {A} (l : list A) (n : nat) :
  mjoin (replicate n l) ++ l = mjoin (replicate (S n) l).
Proof.
  rewrite replicate_S_end, join_app. f_equal. cbn. by rewrite app_nil_r.
Qed.

(** X3. While Bootstrap is not loaded, [init] never completes the
    initialisation: it constructs no modal object and starts no interval,
    leaves [initialized] unset, and every call appends one more stylesheet
    link and one more script tag to the document head. *)
Theorem init_without_bootstrap_repeats (w : World) (calls : nat) :
  initialized w = false → bootstrap_defined w = false →
  let w' := Nat.iter calls (exec init) w in
  initialized w' = false ∧
  timer_state w' = timer_state w ∧
  interactionModal w' = interactionModal w ∧
  head w' = head w ++ mjoin (replicate calls [Stylesheet bootstrap_css; Script bootstrap_js]) ∧
  completion init w' = Normal tt.
Proof.
  intros Hi Hb. cbn zeta.
  assert (H : initialized (Nat.iter calls (exec init) w) = false ∧
              bootstrap_defined (Nat.iter calls (exec init) w) = false ∧
              timer_state (Nat.iter calls (exec init) w) = timer_state w ∧
              interactionModal (Nat.iter calls (exec init) w) = interactionModal w ∧
              head (Nat.iter calls (exec init) w)
              = head w ++ mjoin (replicate calls [Stylesheet bootstrap_css;
                                                  Script bootstrap_js])).
  { induction calls as [|n (Hi' & Hb' & Ht' & Hm' & Hh')].
    { cbn. by rewrite app_nil_r. }
    rewrite Nat.iter_succ.
    destruct (init_no_bootstrap_step _ Hi' Hb') as (_ & ? & ? & Ht & Hm & Hh).
    split_and!; try done; try congruence.
    rewrite Hh, Hh', <- app_assoc. f_equal. apply join_replicate_snoc. }
  destruct H as (Hi' & Hb' & ? & ? & ?). split_and!; try done.
  by apply init_no_bootstrap_step.
Qed.

Lemma init_without_bootstrap_repeats_witness :
  length (head (Nat.iter 3 (exec init) (constructor None None false))) = 6.
Proof.
  pose proof (init_without_bootstrap_repeats (constructor None None false) 3
                eq_refl eq_refl) as (_ & _ & _ & H & _).
  by rewrite H.
Defined.

Lemma script_loaded_first (w : World) :
  initialized w = false →
  completion (dispatch ScriptLoaded) w = Normal tt ∧
  initialized (exec (dispatch ScriptLoaded) w) = true ∧
  intervals (exec (dispatch ScriptLoaded) w) = intervals w ++ [next_timer w] ∧
  checkInterval (exec (dispatch ScriptLoaded) w) = Some (next_timer w) ∧
  Ready (exec (dispatch ScriptLoaded) w).
Proof.
  destruct w as [im p ci ini me se hd bd iv nt nw cs]. cbn.
  intros ->. js_step. unfold Ready. destruct me; cbn; eauto 10.
Qed.

Lemma script_loaded_again (w : World) :
  initialized w = true →
  dispatch ScriptLoaded w
  = (Normal tt,
     with_console (console w ++ [Log "Bootstrap loaded dynamically"])
       (with_bootstrap_defined true w)).
Proof.
  destruct w as [im p ci ini me se hd bd iv nt nw cs]. cbn. by intros ->.
Qed.

(** X4. When the dynamically loaded script fires its [onload] on a
    handler that is not initialised, the initialisation completes: the
    page is ready and exactly one interval is started. Every further
    [onload] (one script tag was appended by each failed [init]) adds
    nothing to the timers, and none of these calls fails. *)
Theorem script_loaded_initialises_once (w : World) (more : nat) :
  initialized w = false →
  let result := run (replicate (S more) ScriptLoaded) w in
  result.1 = [] ∧
  initialized result.2 = true ∧
  intervals result.2 = intervals w ++ [next_timer w] ∧
  checkInterval result.2 = Some (next_timer w) ∧
  Ready result.2.
Proof.
  intros Hi. cbn zeta. cbn [replicate run].
  destruct (script_loaded_first w Hi) as (Hc & Hi1 & Hv1 & Hc1 & Hr1).
  unfold exec, completion in *.
  destruct (dispatch ScriptLoaded w) as [[[]|e] w1]; [|done]. cbn in Hi1, Hv1, Hc1, Hr1.
  rewrite <- Hv1, <- Hc1. clear Hc Hv1 Hc1 Hi.
  revert w1 Hi1 Hr1. induction more as [|n IH]; intros w1 Hi1 Hr1; [done|].
  cbn [replicate run]. rewrite (script_loaded_again _ Hi1).
  destruct (IH (with_console (console w1 ++ [Log "Bootstrap loaded dynamically"])
                  (with_bootstrap_defined true w1))) as (? & ? & Hv & Hc & ?);
    [by destruct w1..|].
  split_and!; done.
Qed.

Lemma script_loaded_initialises_once_witness :
  intervals (run (replicate 3 ScriptLoaded)
               (exec init (exec init (constructor None None false)))).2 = [1].
Proof.
  exact (proj1 (proj2 (proj2
    (script_loaded_initialises_once
       (exec init (exec init (constructor None None false))) 2 eq_refl)))).
Defined.

(** ** What a poll does to the local set *)

Lemma pending_with_console (c : list Console) (w : World) :
  pendingInteractions (with_console c w) = pendingInteractions w.
Proof. by destruct w. Qed.

Lemma process_all_known (data : Entries) (w : World) :
  Forall (λ entry, known (pendingInteractions w) entry.1 = true) data →
  process data w = (Normal tt, w).
Proof.
  induction 1 as [|[k r] rest Hk _ IH]; [done|].
  rewrite process_cons. cbn in Hk. by rewrite Hk.
Qed.

Lemma resume_all_known (data : Entries) (w : World) :
  Forall (λ entry, known (pendingInteractions w) entry.1 = true) data →
  checkPendingInteractions_resume (PollData data) w
  = (Normal tt, with_console (console w ++ [Log "Pending interactions:"]) w).
Proof.
  intros H. rewrite resume_data_unfold, process_all_known; [done|].
  by rewrite pending_with_console.
Qed.

(** X5. A reply that holds only ids the handler knows (among them every
    reply that is the empty object) changes nothing on the page: nothing
    is recorded, shown, hidden or sent; the console gets one line. *)
Theorem poll_of_known_ids_is_idle (data : Entries) (w : World) :
  Forall (λ entry, known (pendingInteractions w) entry.1 = true) data →
  checkPendingInteractions_resume (PollData data) w
  = (Normal tt, with_console (console w ++ [Log "Pending interactions:"]) w).
Proof. apply resume_all_known. Qed.

Lemma poll_of_known_ids_is_idle_witness :
  pendingInteractions
    (exec (checkPendingInteractions_resume (PollData [("req-1", Sample.text_request)]))
          (Sample.showing Sample.login_request))
  = pendingInteractions (Sample.showing Sample.login_request).
Proof.
  assert (H : Forall (λ entry, known (pendingInteractions
                                        (Sample.showing Sample.login_request))
                                     entry.1 = true)
                     [("req-1", Sample.text_request)]).
  { constructor; [vm_compute; reflexivity|constructor]. }
  unfold exec. rewrite (poll_of_known_ids_is_idle _ _ H). apply pending_with_console.
Defined.

(** X6. An entry of the reply whose key is a name every object inherits
    ([constructor], [toString], [__proto__], ...) is invisible to the
    handler: the cycle does exactly what it does on the reply without
    those entries. *)
Theorem poll_skips_inherited_keys (data : list (string * Request)) (w : World) :
  checkPendingInteractions_resume (PollData data) w
  = checkPendingInteractions_resume
      (PollData (filter (λ entry, Js.inherited entry.1 = false) data)) w.
Proof.
  rewrite !resume_data_unfold.
  assert (H : ∀ v, process data v
                   = process (filter (λ entry, Js.inherited entry.1 = false) data) v).
  { induction data as [|[k r] rest IH]; intros v; [done|].
    rewrite filter_cons. cbn [fst]. case_decide as Hk.
    - rewrite !process_cons. by rewrite IH.
    - rewrite process_cons. apply not_false_is_true in Hk.
      unfold known. rewrite Hk, orb_true_r. apply IH. }
  by rewrite H.
Qed.

Lemma showInteraction_frame (request : Request) (w : World) :
  pendingInteractions (showInteraction request w).2 = pendingInteractions w ∧
  network (showInteraction request w).2 = network w.
Proof.
  rewrite showInteraction_unfold.
  destruct w as [im p ci ini [m|] se hd bd iv nt nw cs]; [|done]. by destruct im.
Qed.

Lemma known_false (pending : gmap string Request) (reqId : string) :
  known pending reqId = false → pending !! reqId = None ∧ Js.inherited reqId = false.
Proof.
  unfold known. intros [H1 H2]%orb_false_elim. split; [|done].
  apply bool_decide_eq_false in H1. by apply eq_None_not_Some.
Qed.

Lemma process_adds_at_most_one (data : Entries) (w : World) :
  network (process data w).2 = network w ∧
  (pendingInteractions (process data w).2 = pendingInteractions w ∨
   ∃ reqId request,
     (reqId, request) ∈ data ∧ pendingInteractions w !! reqId = None ∧
     pendingInteractions (process data w).2
     = <[reqId := request]> (pendingInteractions w)).
Proof.
  induction data as [|[k r] rest IH]; [by split; [|left]|].
  rewrite process_cons. destruct (known (pendingInteractions w) k) eqn:Hk.
  - destruct IH as [Hn [Hp|(k' & r' & Hin & Hnone & Hp)]]; split; try done; [by left|].
    right. exists k', r'. split_and!; try done. by apply list_elem_of_further.
  - apply known_false in Hk as [Hnone _].
    unfold console_log, modify, mbind, M_bind. cbn.
    destruct (showInteraction_frame r
                (with_pendingInteractions (<[k:=r]> (pendingInteractions w))
                   (with_console (console w ++ [Log "New interaction request:"]) w)))
      as [Hp Hn].
    split; [rewrite Hn; by destruct w|].
    right. exists k, r. split_and!; [apply list_elem_of_here|done|].
    rewrite Hp. by destruct w.
Qed.


(** X7. A cycle sends nothing and touches the local set in one way only:
    it leaves it as it is, or it adds one entry of the reply under a key
    that had no entry. It never removes or overwrites an entry, and never
    records more than one request, however many the reply holds. *)
Theorem poll_adds_at_most_one (data : Entries) (w : World) :
  let w' := exec (checkPendingInteractions_resume (PollData data)) w in
  network w' = network w ∧
  (pendingInteractions w' = pendingInteractions w ∨
   ∃ reqId request,
     (reqId, request) ∈ data ∧ pendingInteractions w !! reqId = None ∧
     pendingInteractions w' = <[reqId := request]> (pendingInteractions w)).
Proof.
  cbn zeta. unfold exec. rewrite resume_data_unfold.
  pose proof (process_adds_at_most_one data
                (with_console (console w ++ [Log "Pending interactions:"]) w)) as [Hn Hp].
  rewrite pending_with_console in Hp.
  assert (Hn' : network (process data
                  (with_console (console w ++ [Log "Pending interactions:"]) w)).2
                = network w) by (rewrite Hn; by destruct w).
  destruct (process data _) as [[[]|e] v]; cbn [snd] in *; [done|].
  rewrite pending_with_console. split; [by destruct v|done].
Qed.



(** X9. The close button of the modal's header hides the modal and does
    nothing else: no request is sent and the displayed request stays in
    the local set. A later reply that lists only ids the handler knows
    (the closed request's among them) therefore shows nothing: the
    request is neither answered nor offered again. *)
Theorem close_button_strands_request (w : World) (data : Entries) :
  Forall (λ entry, known (pendingInteractions w) entry.1 = true) data →
  let closed := exec (dispatch ClickClose) w in
  completion (dispatch ClickClose) w = Normal tt ∧
  network closed = network w ∧
  pendingInteractions closed = pendingInteractions w ∧
  displayed closed = None ∧
  displayed (exec (checkPendingInteractions_resume (PollData data)) closed) = None.
Proof.
  intros Hk. cbn zeta.
  assert (Hclosed : displayed (exec (dispatch ClickClose) w) = None).
  { destruct w as [im p ci ini [m|] se hd bd iv nt nw cs]; done. }
  split_and!; try by destruct w.
  unfold exec at 1. rewrite resume_all_known; [|by destruct w].
  cbn [snd]. by rewrite displayed_with_console.
Qed.

Lemma close_button_strands_request_witness :
  displayed (Sample.showing Sample.login_request) = Some Sample.login_request ∧
  displayed (exec (checkPendingInteractions_resume
                     (PollData [("req-1", Sample.login_request)]))
                  (exec (dispatch ClickClose) (Sample.showing Sample.login_request)))
  = None.
Proof.
  split; [vm_compute; reflexivity|].
  refine (proj2 (proj2 (proj2 (proj2
    (close_button_strands_request (Sample.showing Sample.login_request)
       [("req-1", Sample.login_request)] _))))).
  constructor; [vm_compute; reflexivity|constructor].
Defined.

(** ** Submitting: the status element, failures, repeated clicks *)

Lemma Displaying_frame (w w' : World) (request : Request) (edits : list Edit) :
  interactionModal w' = interactionModal w → modal_element w' = modal_element w →
  Displaying w request edits → Displaying w' request edits.
Proof. unfold Displaying. by intros -> ->. Qed.

Lemma click_submit_run (w : World) (request : Request) (edits : list Edit) (st : StatusEl) :
  Displaying w request edits → status_element w = Some st →
  dispatch ClickSubmit w
  = (Normal tt,
     with_network (network w ++ [response_post request edits])
       (with_status_element (Some notifying) w)).
Proof.
  intros Hd Hst. pose proof Hd as (_ & m & Hm & _ & Hs & _).
  unfold dispatch, click_submit.
  rewrite (bind_run _ _ _ _ _ (submit_handler_run _ _ Hm)), Hs.
  by rewrite (bind_run _ _ _ _ _ (submit_begin_run _ _ _ _ Hd Hst)).
Qed.

(** X10. On a page that has no [#interaction-status] element (the modal
    the handler creates does not contain one), pressing Submit on a
    displayed request sends nothing: the handler fails on the status
    element before it reaches the fetch and fails again inside its
    [catch], so the error escapes uncaught. The request stays displayed
    and in the local set. *)
Theorem submit_without_status_element (w : World) (request : Request) (edits : list Edit) :
  Displaying w request edits → status_element w = None →
  let result := run [ClickSubmit] w in
  result.1 = [null_element] ∧
  network result.2 = network w ∧
  pendingInteractions result.2 = pendingInteractions w ∧
  Displaying result.2 request edits ∧
  console result.2 = console w ++ [Err "Error submitting response:"].
Proof.
  intros Hd Hst. pose proof Hd as (_ & m & Hm & _ & Hs & _). cbn zeta.
  assert (Hclick : dispatch ClickSubmit w
                   = (Throw null_element,
                      with_console (console w ++ [Err "Error submitting response:"]) w)).
  { unfold dispatch, click_submit.
    rewrite (bind_run _ _ _ _ _ (submit_handler_run _ _ Hm)), Hs.
    unfold mbind, M_bind. by rewrite (submit_begin_without_status _ _ _ Hd Hst). }
  cbn [run]. rewrite Hclick. cbn.
  split_and!;
    first [by destruct w | eapply Displaying_frame; [..|done]; by destruct w].
Qed.

Lemma submit_without_status_element_witness :
  Displaying (with_status_element None (Sample.showing Sample.login_request))
             Sample.login_request [] ∧
  network (run [ClickSubmit]
             (with_status_element None (Sample.showing Sample.login_request))).2
  = [GET "/api/interaction/pending"].
Proof.
  assert (H : Displaying (with_status_element None (Sample.showing Sample.login_request))
                         Sample.login_request []).
  { split; [reflexivity|]. eexists. split_and!; reflexivity. }
  split; [exact H|].
  exact (proj1 (proj2 (submit_without_status_element _ _ _ H eq_refl))).
Defined.

(** X11. When the fetch of a submit is rejected, the handler keeps the
    request as it was: still in the local set, still displayed with the
    form as the user left it; the status element shows
    ["Error notifying agent: "] followed by the error's message. Pressing
    Submit again sends the same POST once more. *)
Theorem failed_submit_can_be_retried (w : World) (request : Request)
    (edits : list Edit) (error : Js.Error) :
  Displaying w request edits → is_Some (status_element w) →
  let failed := run [ClickSubmit; SubmitSettled request (Js.Rejected error)] w in
  let retried := run [ClickSubmit; SubmitSettled request (Js.Rejected error);
                      ClickSubmit] w in
  failed.1 = [] ∧
  pendingInteractions failed.2 = pendingInteractions w ∧
  Displaying failed.2 request edits ∧
  textContent <$> status_element failed.2
  = Some ("Error notifying agent: " +:+ Js.message error) ∧
  className <$> status_element failed.2 = Some "alert alert-danger mt-3" ∧
  network failed.2 = network w ++ [response_post request edits] ∧
  retried.1 = [] ∧
  network retried.2
  = network w ++ [response_post request edits; response_post request edits].
Proof.
  intros Hd [st Hst]. cbn zeta.
  set (w1 := with_network (network w ++ [response_post request edits])
               (with_status_element (Some notifying) w)).
  assert (Hd1 : Displaying w1 request edits)
    by (eapply Displaying_frame; [..|done]; by destruct w).
  assert (Hst1 : status_element w1 = Some notifying) by by destruct w.
  set (w2 := with_status_element
               (Some {| textContent := "Error notifying agent: " +:+ Js.message error;
                        className := "alert alert-danger mt-3";
                        display := display notifying |})
               (with_console (console w1 ++ [Err "Error submitting response:"]) w1)).
  assert (Hd2 : Displaying w2 request edits)
    by (eapply Displaying_frame; [..|exact Hd1]; by destruct w).
  assert (Hst2 : status_element w2 = Some
                   {| textContent := "Error notifying agent: " +:+ Js.message error;
                      className := "alert alert-danger mt-3";
                      display := display notifying |}) by by destruct w.
  assert (Hfail : dispatch (SubmitSettled request (Js.Rejected error)) w1
                  = (Normal tt, w2)).
  { cbn [dispatch]. unfold mbind, M_bind.
    by rewrite (submit_resume_rejected _ _ _ _ Hst1). }
  cbn [run].
  rewrite (click_submit_run _ _ _ _ Hd Hst). fold w1. rewrite Hfail.
  rewrite (click_submit_run _ _ _ _ Hd2 Hst2). cbn [fst snd].
  split_and!; try done; try by destruct w.
  destruct w. cbn. by rewrite <- app_assoc.
Qed.

Lemma failed_submit_can_be_retried_witness :
  Displaying (Sample.edited Sample.text_request [TypeText "hello"])
             Sample.text_request [TypeText "hello"] ∧
  network (run [ClickSubmit;
                SubmitSettled Sample.text_request
                  (Js.Rejected (Js.NetworkError "Failed to fetch"));
                ClickSubmit]
             (Sample.edited Sample.text_request [TypeText "hello"])).2
  = [GET "/api/interaction/pending";
     POST "/api/interaction/response" (ResponseBody "req-2" (Js.Str "hello") false);
     POST "/api/interaction/response" (ResponseBody "req-2" (Js.Str "hello") false)].
Proof.
  assert (H1 : Displaying (Sample.edited Sample.text_request [TypeText "hello"])
                          Sample.text_request [TypeText "hello"]).
  { split; [reflexivity|]. eexists. split_and!; reflexivity. }
  assert (H2 : is_Some (status_element
                          (Sample.edited Sample.text_request [TypeText "hello"]))).
  { eexists. reflexivity. }
  split; [exact H1|].
  exact (proj2 (proj2 (proj2 (proj2 (proj2 (proj2 (proj2
    (failed_submit_can_be_retried _ _ _
       (Js.NetworkError "Failed to fetch") H1 H2)))))))).
Defined.



(** X13. A reply to a submit or to a cancel deletes the entry filed under
    the request's own [request_id], on every page, also where hiding the
    modal or writing the status fails afterwards; entries under other
    keys are untouched, so a request that the poll filed under a key
    other than its [request_id] stays known after it has been resolved.
    A rejected fetch deletes nothing. *)
Theorem resolution_deletes_by_request_id (w : World) (request : Request)
    (status : nat) (error : Js.Error) :
  let submitted := exec (submitResponse_resume request (Js.Response status)) w in
  let cancelled := exec (cancelInteraction_resume request (Js.Response status)) w in
  pendingInteractions submitted = delete (request_id request) (pendingInteractions w) ∧
  pendingInteractions cancelled = delete (request_id request) (pendingInteractions w) ∧
  (∀ reqId, reqId ≠ request_id request →
     known (pendingInteractions submitted) reqId = known (pendingInteractions w) reqId ∧
     known (pendingInteractions cancelled) reqId = known (pendingInteractions w) reqId) ∧
  pendingInteractions (exec (submitResponse_resume request (Js.Rejected error)) w)
  = pendingInteractions w ∧
  pendingInteractions (exec (cancelInteraction_resume request (Js.Rejected error)) w)
  = pendingInteractions w.
Proof.
  cbn zeta.
  assert (Hs : pendingInteractions (exec (submitResponse_resume request (Js.Response status)) w)
               = delete (request_id request) (pendingInteractions w)).
  { by destruct w as [[] p ci ini [m|] [st|] hd bd iv nt nw cs]. }
  assert (Hc : pendingInteractions (exec (cancelInteraction_resume request (Js.Response status)) w)
               = delete (request_id request) (pendingInteractions w)).
  { by destruct w as [[] p ci ini [m|] [st|] hd bd iv nt nw cs]. }
  split_and!; [done|done|..].
  - intros reqId Hne. rewrite Hs, Hc. unfold known.
    by rewrite lookup_delete_ne.
  - by destruct w as [[] p ci ini [m|] [st|] hd bd iv nt nw cs].
  - by destruct w.
Qed.

(** ** No error escapes on a sound page *)

Lemma total_ret {A} (a : A) : Total (mret a).
Proof. intros w Hw. split; [done|by exists a]. Qed.

Lemma total_gets {A} (f : World → A) : Total (gets f).
Proof. intros w Hw. split; [done|by eexists]. Qed.

Lemma total_bind {A B} (c : M A) (f : A → M B) :
  Total c → (∀ a, Total (f a)) → Total (c ≫= f).
Proof.
  intros Hc Hf w Hw. destruct (Hc w Hw) as [Hs [a Ha]].
  unfold mbind, M_bind. destruct (c w) as [[a'|e] v]; cbn in *; [|done].
  by apply Hf.
Qed.

Lemma total_try {A} (body : M A) (handler : Js.Error → M A) :
  Keeps Sound body → (∀ e, Total (handler e)) → Total (try_catch body handler).
Proof.
  intros Hb Hh w Hw. specialize (Hb w Hw). unfold try_catch.
  destruct (body w) as [[a|e] v]; cbn in *; [split; eauto|by apply Hh].
Qed.

Lemma keeps_of_total {A} (c : M A) : Total c → Keeps Sound c.
Proof. intros Hc w Hw. by apply Hc. Qed.

Lemma total_modify (f : World → World) :
  (∀ w, Sound w → Sound (f w)) → Total (modify f).
Proof. intros Hf w Hw. split; [by apply Hf|by eexists]. Qed.

Lemma total_on_status (f : StatusEl → StatusEl) : Total (on_status f).
Proof.
  intros w ([Him [m Hm]] & [st Hst] & Hb). unfold on_status. rewrite Hst.
  split; [|by eexists].
  destruct w. unfold Sound, Ready, Bound in *. cbn in *. eauto.
Qed.

Lemma total_on_modal (f : ModalEl → ModalEl) :
  (∀ m, content (f m) = content m ∧ submit_onclick (f m) = submit_onclick m) →
  Total (on_modal f).
Proof.
  intros Hf w ([Him [m Hm]] & [st Hst] & Hb). unfold on_modal. rewrite Hm.
  split; [|by eexists]. destruct (Hf m) as [Hc Ho].
  destruct w. unfold Sound, Ready, Bound in *. cbn in *. subst.
  split_and!; eauto.
  intros m' r [= <-] Hr. rewrite Hc. rewrite Ho in Hr. eauto.
Qed.

Lemma total_modal_show : Total modal_show.
Proof.
  intros w Hw. pose proof Hw as ([Him _] & _).
  unfold modal_show, gets, mbind, M_bind. rewrite Him.
  by apply total_on_modal.
Qed.

Lemma total_modal_hide : Total modal_hide.
Proof.
  intros w Hw. pose proof Hw as ([Him _] & _).
  unfold modal_hide, gets, mbind, M_bind. rewrite Him.
  by apply total_on_modal.
Qed.

Lemma total_setInterval : Total setInterval.
Proof.
  intros w Hw. split; [|by eexists].
  destruct w. unfold Sound, Ready, Bound in *. cbn in *. done.
Qed.

Lemma total_bs_dismiss : Total bs_dismiss.
Proof.
  intros w ([Him [m Hm]] & [st Hst] & Hb). split; [|by eexists].
  destruct w. unfold Sound, Ready, Bound in *. cbn in *. subst.
  split_and!; eauto. cbn. intros m' r [= <-] Hr. by apply (Hb m r).
Qed.

Lemma total_showInteraction (request : Request) : Total (showInteraction request).
Proof.
  intros w ([Him [m Hm]] & [st Hst] & Hb). rewrite showInteraction_unfold, Hm, Him.
  split; [|by eexists].
  destruct w. unfold Sound, Ready, Bound in *. cbn in *. subst.
  split_and!; eauto. intros m' r [= <-] [= <-]. by exists [].
Qed.

(** Closes an update of a field other than the modal subtree. *)
Ltac sound_leaf :=
  let w := fresh in
  intros w ([? [? ?]] & [? ?] & ?); destruct w;
  unfold Sound, Ready, Bound in *; cbn in *; subst;
  split_and!; eauto;
  try (intros ? ? [= <-]; cbn; discriminate).

Ltac total_step :=
  first
    [ assumption
    | case_decide | case_match
    | lazymatch goal with
      | |- Total (mret _) => apply total_ret
      | |- Total (gets _) => apply total_gets
      | |- Total (mbind _ _) => apply total_bind; [|intros ?]
      | |- Total (try_catch _ _) => apply total_try; [|intros ?]
      | |- Total (modify _) => apply total_modify; sound_leaf
      | |- Total (on_status _) => apply total_on_status
      | |- Total (on_modal _) => apply total_on_modal; intros ?; split; reflexivity
      | |- Total modal_show => apply total_modal_show
      | |- Total modal_hide => apply total_modal_hide
      | |- Total setInterval => apply total_setInterval
      | |- Total bs_dismiss => apply total_bs_dismiss
      | |- Total (showInteraction _) => apply total_showInteraction
      | |- Keeps Sound (throw _) => apply keeps_throw
      | |- Keeps Sound _ => apply keeps_of_total
      end ].

Ltac open_events :=
  unfold init, cleanup, checkPendingInteractions_begin,
    checkPendingInteractions_resume, click_cancel, submitResponse_resume,
    cancelInteraction_begin, cancelInteraction_resume;
  unfold createModalElement, loadBootstrap, clearInterval, check_catch,
    cancel_handler, submit_catch, cancel_catch, delete_pending;
  unfold console_log, console_error, fetch.

Lemma total_process (data : Entries) : Total (process data).
Proof.
  induction data as [|[k r] rest IH]; cbn [process]; open_events;
    repeat total_step.
Qed.

(** The submit button runs the handler of the request whose form the
    content area holds, so the [switch] finds the element it reads. *)
Lemma total_click_submit : Total click_submit.
Proof.
  intros w Hw. pose proof Hw as ([Him [m Hm]] & [st Hst] & Hb).
  unfold click_submit. rewrite (bind_run _ _ _ _ _ (submit_handler_run _ _ Hm)).
  destruct (submit_onclick m) as [request|] eqn:Ho; [|by apply total_ret].
  destruct (Hb m request Hm Ho) as [edits Hc].
  pose (T := try_catch
       (on_status (set_textContent "Notifying agent of your action...");;
        on_status (set_className "alert alert-info mt-3");;
        on_status (set_display "block");;
        fetch (POST "/api/interaction/response"
                 (ResponseBody (request_id request)
                    (Table.kind_dispatch request edits) false));;
        mret Awaiting)
       submit_catch).
  assert (Ht : Total T).
  { unfold T. open_events. repeat total_step. }
  assert (Hbegin : submitResponse_begin request w = T w).
  { unfold submitResponse_begin.
    by rewrite (bind_run _ _ _ _ _ (read_response_form _ _ _ _ Hm Hc)). }
  destruct (Ht w Hw) as [Hs [a Ha]].
  unfold mbind, M_bind. rewrite Hbegin.
  destruct (T w) as [[a'|e] v]; cbn in *; [|done].
  split; [done|by eexists].
Qed.

Lemma total_user_edit (e : Edit) :
  Total (modify (λ w, with_modal_element
                        ((λ m, set_content (apply_edit (content m) e) m)
                           <$> modal_element w) w)).
Proof.
  apply total_modify. intros w ([Him [m Hm]] & [st Hst] & Hb).
  destruct w. unfold Sound, Ready, Bound in *. cbn in *. subst.
  split_and!; eauto. cbn. intros m' r [= <-] Hr. cbn in *.
  destruct (Hb m r eq_refl Hr) as [edits Hc]. exists (edits ++ [e]).
  unfold edit_content in *. by rewrite foldl_snoc, Hc.
Qed.

Lemma total_dispatch (ev : Event) : Total (dispatch ev).
Proof.
  destruct ev; cbn [dispatch];
    try apply total_click_submit; try apply total_user_edit;
    open_events; repeat first [apply total_process | total_step].
Qed.

(** A page as a successful [init] leaves it is sound when it has the
    status element and its modal, if it had one, had no submit handler. *)
Lemma init_Sound (modal : option ModalEl) (st : StatusEl) :
  (∀ m, modal = Some m → submit_onclick m = None) →
  Sound (exec init (constructor modal (Some st) true)).
Proof.
  intros Hm. unfold Sound, Ready, Bound.
  destruct modal as [m|]; cbn; split_and!; eauto.
  - intros m' r [= <-] Hr. by rewrite (Hm m eq_refl) in Hr.
  - intros m' r [= <-] Hr. done.
Qed.

(** X14. On a sound page (ready, with the status element, the form
    fitting the submit handler: what a successful [init] on a page with
    the status element establishes) no run of events leaves an error
    uncaught, in any order of ticks, replies, edits and clicks, whatever
    the replies are; and the page stays sound. *)
Theorem no_uncaught_error (events : list Event) (w : World) :
  Sound w → (run events w).1 = [] ∧ Sound (run events w).2.
Proof.
  revert w. induction events as [|ev events IH]; intros w Hw; [done|].
  cbn [run]. destruct (total_dispatch ev w Hw) as [Hs [a Ha]].
  destruct (dispatch ev w) as [[[]|e] v]; cbn in *; [by apply IH|done].
Qed.

Lemma no_uncaught_error_witness :
  Sound Sample.ready ∧
  (run [Tick 1; PollSettled (PollData [("req-2", Sample.text_request)]);
        UserEdit (TypeText "hello"); ClickSubmit;
        PollSettled (PollFailed (Js.SyntaxError "Unexpected token"));
        SubmitSettled Sample.text_request (Js.Rejected (Js.NetworkError "Failed to fetch"));
        ClickCancel; CancelSettled Sample.text_request (Js.Response 500)]
       Sample.ready).1 = [].
Proof.
  assert (H : Sound Sample.ready).
  { apply init_Sound. intros m [=]. }
  split; [exact H|].
  exact (proj1 (no_uncaught_error _ _ H)).
Defined.

(** ** What the events leave alone *)

Ltac open_init := unfold init, cleanup, createModalElement, loadBootstrap, clearInterval.




(** X16. The local set changes only when a reply arrives: ticks, clicks
    on Submit, Cancel or the close button, edits of the form, [init] and
    [cleanup] leave [pendingInteractions] as it is. In particular a click
    on Submit or Cancel marks nothing as resolved before the reply. *)
Theorem local_set_changes_only_on_replies (ev : Event) (w : World) :
  (∀ reply, ev ≠ PollSettled reply) →
  (∀ request reply, ev ≠ SubmitSettled request reply) →
  (∀ request reply, ev ≠ CancelSettled request reply) →
  pendingInteractions (exec (dispatch ev) w) = pendingInteractions w.
Proof.
  intros Hp Hs Hc.
  assert (Hk : Keeps (λ v, pendingInteractions v = pendingInteractions w) (dispatch ev)).
  { destruct ev; try (by exfalso; eapply Hp); try (by exfalso; eapply Hs);
      try (by exfalso; eapply Hc);
      cbn [dispatch]; open_init; open_methods; repeat keeps_step same_fields. }
  by apply Hk.
Qed.

Lemma local_set_changes_only_on_replies_witness :
  pendingInteractions (exec (dispatch ClickCancel) (Sample.showing Sample.login_request))
  = pendingInteractions (Sample.showing Sample.login_request).
Proof. apply local_set_changes_only_on_replies; discriminate. Defined.

(** ** The label of the submit button *)

Ltac label_leaf :=
  intros; unfold DoneLabel in *;
  repeat match goal with w : World |- _ => destruct w end;
  cbn in *; subst; cbn in *;
  repeat match goal with m : option ModalEl |- _ => destruct m end;
  cbn in *; first [assumption | reflexivity | discriminate].

Lemma process_DoneLabel (data : Entries) : Keeps DoneLabel (process data).
Proof.
  induction data as [|[k r] rest IH]; cbn [process]; open_methods;
    repeat keeps_step label_leaf.
Qed.

Lemma init_DoneLabel : Keeps DoneLabel init.
Proof.
  intros w Hw. destruct w as [im p ci ini [m|] se hd bd iv nt nw cs]; [|done].
  destruct ini, bd; done.
Qed.

Lemma dispatch_DoneLabel (ev : Event) : Keeps DoneLabel (dispatch ev).
Proof.
  destruct ev; cbn [dispatch]; unfold cleanup, clearInterval; open_methods;
    repeat first [apply init_DoneLabel | apply process_DoneLabel
                 | keeps_step label_leaf].
Qed.

(** X17. Showing a request of kind [login] relabels the submit button
    [Done], and nothing sets the label back: whatever happens afterwards,
    requests of other kinds included, the button of the modal reads
    [Done]. *)
Theorem done_label_sticks (w : World) (request : Request) (events : list Event) :
  Ready w → type request = "login" →
  DoneLabel (run events (exec (showInteraction request) w)).2.
Proof.
  intros [Him [m Hm]] Hlogin.
  apply (run_keeps DoneLabel); [apply dispatch_DoneLabel|].
  unfold exec, DoneLabel. rewrite showInteraction_unfold, Hm, Him. cbn.
  by rewrite decide_True.
Qed.

Lemma done_label_sticks_witness :
  Ready Sample.ready ∧
  let w := (run [ClickSubmit; SubmitSettled Sample.login_request (Js.Response 200);
                 PollSettled (PollData [("req-2", Sample.text_request)])]
              (exec (showInteraction Sample.login_request) Sample.ready)).2 in
  displayed w = Some Sample.text_request ∧
  submit_text <$> modal_element w = Some "Done".
Proof.
  assert (H : Ready Sample.ready).
  { split; [reflexivity|]. eexists. reflexivity. }
  split; [exact H|]. cbn zeta. split; [vm_compute; reflexivity|].
  exact (done_label_sticks Sample.ready Sample.login_request _ H eq_refl).
Defined.

End HandlerMore.

(** * More on the standalone page *)

Module StandaloneMore.

Import Standalone Invariants.

Local Open Scope list_scope.
Local Open Scope nat_scope.

Lemma poll_with_current (p : Page) (request : Request) (reply : Poll) :
  currentRequest p = Some request →
  let p' := checkPendingInteractions reply p in
  currentRequest p' = Some request ∧
  interaction_prompt p' = interaction_prompt p ∧
  interaction_description p' = interaction_description p ∧
  complete_button p' = complete_button p ∧
  network p' = network p ++ [GET "/api/interaction/pending"].
Proof.
  intros H. destruct p as [cur pr de cb sm tm nw cs]. cbn in H. subst cur.
  destruct reply as [data|error]; [|done].
  unfold checkPendingInteractions, checkPendingInteractions_resume. cbn.
  by destruct (snd <$> data).
Qed.

(** X18. The standalone page shows one request at a time: while a
    request is current, no sequence of poll cycles, whatever their
    replies (other pending requests, the empty object, failures),
    replaces it or rewrites its prompt, description or button; each cycle
    only sends its GET. *)
Theorem standalone_polls_keep_current (p : Page) (request : Request) (replies : list Poll) :
  currentRequest p = Some request →
  let p' := foldl (λ page reply, checkPendingInteractions reply page) p replies in
  currentRequest p' = Some request ∧
  interaction_prompt p' = interaction_prompt p ∧
  interaction_description p' = interaction_description p ∧
  complete_button p' = complete_button p ∧
  network p' = network p ++ replicate (length replies) (GET "/api/interaction/pending").
Proof.
  revert p. induction replies as [|reply replies IH]; intros p H; cbn zeta.
  { cbn. by rewrite app_nil_r. }
  destruct (poll_with_current p request reply H) as (H1 & H2 & H3 & H4 & H5).
  destruct (IH _ H1) as (I1 & I2 & I3 & I4 & I5). cbn [foldl length replicate].
  split_and!; try congruence.
  rewrite I5, H5, <- app_assoc. done.
Qed.

Lemma standalone_polls_keep_current_witness :
  currentRequest
    (foldl (λ page reply, checkPendingInteractions reply page)
       (checkPendingInteractions (PollData [("req-1", Sample.login_request)]) loaded)
       [PollData [("req-1", Sample.login_request); ("req-2", Sample.text_request)];
        PollFailed (Js.NetworkError "Failed to fetch");
        PollData [("req-2", Sample.text_request)]])
  = Some Sample.login_request.
Proof.
  exact (proj1 (standalone_polls_keep_current
                  (checkPendingInteractions
                     (PollData [("req-1", Sample.login_request)]) loaded)
                  Sample.login_request _ eq_refl)).
Defined.

(** X19. With no current request, a poll takes the first request of the
    reply, in the reply's order, and shows its prompt and description;
    an empty reply leaves the page as it is. *)
Theorem standalone_poll_takes_first (p : Page) (data : Entries) :
  currentRequest p = None →
  let p' := checkPendingInteractions_resume (PollData data) p in
  currentRequest p' = snd <$> head data ∧
  match head data with
  | Some (_, request) =>
      interaction_prompt p' = prompt request ∧
      interaction_description p' = description request ∧
      network p' = network p ∧ status_message p' = status_message p
  | None => p' = p
  end.
Proof.
  intros H. destruct p as [cur pr de cb sm tm nw cs]. cbn in H. subst cur.
  destruct data as [|[k r] rest]; [done|].
  unfold checkPendingInteractions_resume, displayRequest. cbn.
  by case_decide.
Qed.

Lemma standalone_poll_takes_first_witness :
  currentRequest
    (checkPendingInteractions_resume
       (PollData [("req-2", Sample.text_request); ("req-1", Sample.login_request)])
       loaded)
  = Some Sample.text_request.
Proof.
  exact (proj1 (standalone_poll_takes_first loaded
                  [("req-2", Sample.text_request); ("req-1", Sample.login_request)]
                  eq_refl)).
Defined.

Lemma data_poll_keeps_status (p : Page) (data : Entries) :
  status_message (checkPendingInteractions (PollData data) p) = status_message p.
Proof.
  destruct p as [cur pr de cb sm tm nw cs].
  unfold checkPendingInteractions, checkPendingInteractions_resume, displayRequest. cbn.
  destruct (snd <$> data), cur; try done. by case_decide.
Qed.

Lemma data_polls_keep_status (later : list Entries) (p : Page) (banner : Status) :
  status_message p = banner →
  status_message (foldl (λ page data, checkPendingInteractions (PollData data) page)
                        p later) = banner.
Proof.
  revert p. induction later as [|data later IH]; intros p H; [done|].
  cbn [foldl]. apply IH. by rewrite data_poll_keeps_status.
Qed.

(** X20. A failed poll is not silent on the standalone page: it puts up
    an error banner asking to refresh the page, and no later successful
    poll takes the banner down, whether it finds requests or not. *)
Theorem standalone_poll_error_banner_stays (p : Page) (error : Js.Error)
    (later : list Entries) :
  let failed := checkPendingInteractions (PollFailed error) p in
  let p' := foldl (λ page data, checkPendingInteractions (PollData data) page)
                  failed later in
  status_message failed = poll_error_banner ∧
  currentRequest failed = currentRequest p ∧
  interaction_prompt failed = interaction_prompt p ∧
  status_message p' = poll_error_banner.
Proof.
  cbn zeta. split_and!; try by destruct p.
  apply data_polls_keep_status. by destruct p.
Qed.

(** X21. Once the reply to a submit has arrived, the page has no
    current request: further clicks on Done or Cancel send nothing. The
    page keeps no record of what it has resolved, so the next poll whose
    reply still lists the resolved request first makes it current again. *)
Theorem standalone_resolved_then_stale_poll (p : Page) (request : Request)
    (status : nat) (reqId : string) (rest : Entries) :
  currentRequest p = Some request →
  let resolved := submitResponse (Js.Response status) p in
  currentRequest resolved = None ∧
  network resolved
  = network p ++ [POST "/api/interaction/response"
                    (ResponseBody (request_id request) (Js.Str "completed") false)] ∧
  submitResponse_begin resolved = resolved ∧
  cancelRequest_begin resolved = resolved ∧
  currentRequest
    (checkPendingInteractions_resume (PollData ((reqId, request) :: rest)) resolved)
  = Some request.
Proof.
  intros H. destruct p as [cur pr de cb sm tm nw cs]. cbn in H. subst cur.
  cbn zeta. split_and!; try done.
  unfold checkPendingInteractions_resume, displayRequest. cbn. by case_decide.
Qed.

Lemma standalone_resolved_then_stale_poll_witness :
  currentRequest
    (checkPendingInteractions_resume
       (PollData [("req-1", Sample.login_request)])
       (submitResponse (Js.Response 200)
          (checkPendingInteractions (PollData [("req-1", Sample.login_request)]) loaded)))
  = Some Sample.login_request.
Proof.
  exact (proj2 (proj2 (proj2 (proj2
    (standalone_resolved_then_stale_poll
       (checkPendingInteractions (PollData [("req-1", Sample.login_request)]) loaded)
       Sample.login_request 200 "req-1" [] eq_refl))))).
Defined.

(** X22. The two-second timer that a successful submit or cancel starts
    is not tied to the request it was started for: when a poll has made
    another request current before the timer fires, the timer overwrites
    that request's prompt with the waiting text and blanks its
    description, while the request stays current. *)
Theorem standalone_stale_timer_blanks_next_request (p : Page) (status : nat)
    (reqId : string) (next : Request) (rest : Entries) :
  let after_submit := submitResponse_resume (Js.Response status) p in
  let after_cancel := cancelRequest_resume (Js.Response status) p in
  let poll := checkPendingInteractions_resume (PollData ((reqId, next) :: rest)) in
  interaction_prompt (poll after_submit) = prompt next ∧
  currentRequest (clear_form (poll after_submit)) = Some next ∧
  interaction_prompt (clear_form (poll after_submit)) = "Waiting for agent requests..." ∧
  interaction_description (clear_form (poll after_submit)) = "" ∧
  currentRequest (clear_form (poll after_cancel)) = Some next ∧
  interaction_prompt (clear_form (poll after_cancel)) = "Waiting for agent requests...".
Proof.
  destruct p as [cur pr de cb sm tm nw cs]. cbn zeta.
  unfold checkPendingInteractions_resume, displayRequest. cbn.
  by case_decide.
Qed.

(** X23. A submit whose fetch is rejected leaves the request current and
    its prompt in place, starts no timer and shows the error banner;
    pressing Done again sends the same POST again. *)
Theorem standalone_failed_submit_can_be_retried (p : Page) (request : Request)
    (error : Js.Error) :
  currentRequest p = Some request →
  let post := POST "/api/interaction/response"
                (ResponseBody (request_id request) (Js.Str "completed") false) in
  let failed := submitResponse (Js.Rejected error) p in
  currentRequest failed = Some request ∧
  interaction_prompt failed = interaction_prompt p ∧
  timeouts failed = timeouts p ∧
  status_message failed
  = {| status_text := "Error sending response. Please try again.";
       status_class := "error"; status_display := "block" |} ∧
  network failed = network p ++ [post] ∧
  network (submitResponse_begin failed) = network p ++ [post; post].
Proof.
  intros H. destruct p as [cur pr de cb sm tm nw cs]. cbn in H. subst cur.
  cbn zeta. split_and!; try done. cbn. by rewrite <- app_assoc.
Qed.

Lemma standalone_failed_submit_can_be_retried_witness :
  currentRequest
    (submitResponse (Js.Rejected (Js.NetworkError "Failed to fetch"))
       (checkPendingInteractions (PollData [("req-2", Sample.text_request)]) loaded))
  = Some Sample.text_request.
Proof.
  exact (proj1 (standalone_failed_submit_can_be_retried
                  (checkPendingInteractions
                     (PollData [("req-2", Sample.text_request)]) loaded)
                  Sample.text_request (Js.NetworkError "Failed to fetch") eq_refl)).
Defined.

(** X24. Cancel on the standalone page posts the id of the current
    request to [/api/interaction/cancel] and shows nothing while the call
    is in flight. A reply clears the current request, shows
    ["Request cancelled."] and starts the clearing timer; a rejected
    fetch keeps the request, starts no timer and shows a banner asking to
    try again, and a second press posts the same cancellation again. *)
Theorem standalone_cancel (p : Page) (request : Request) (status : nat)
    (error : Js.Error) :
  currentRequest p = Some request →
  let post := POST "/api/interaction/cancel" (CancelBody (request_id request)) in
  let cancelled := cancelRequest (Js.Response status) p in
  let failed := cancelRequest (Js.Rejected error) p in
  network (cancelRequest_begin p) = network p ++ [post] ∧
  status_message (cancelRequest_begin p) = status_message p ∧
  currentRequest cancelled = None ∧
  status_message cancelled
  = {| status_text := "Request cancelled."; status_class := "info";
       status_display := "block" |} ∧
  timeouts cancelled = S (timeouts p) ∧
  currentRequest failed = Some request ∧
  timeouts failed = timeouts p ∧
  status_message failed
  = {| status_text := "Error cancelling request. Please try again.";
       status_class := "error"; status_display := "block" |} ∧
  network (cancelRequest_begin failed) = network p ++ [post; post].
Proof.
  intros H. destruct p as [cur pr de cb sm tm nw cs]. cbn in H. subst cur.
  cbn zeta. split_and!; try done. cbn. by rewrite <- app_assoc.
Qed.

Lemma standalone_cancel_witness :
  network
    (cancelRequest_begin
       (checkPendingInteractions (PollData [("req-1", Sample.login_request)]) loaded))
  = [GET "/api/interaction/pending";
     POST "/api/interaction/cancel" (CancelBody "req-1")].
Proof.
  exact (proj1 (standalone_cancel
                  (checkPendingInteractions
                     (PollData [("req-1", Sample.login_request)]) loaded)
                  Sample.login_request 200 (Js.NetworkError "Failed to fetch") eq_refl)).
Defined.

End StandaloneMore.
